(** * pgmq transaction decorators: a shallow embedding and its properties

    Source: [src/pgmq/decorators.py], the two decorators [transaction]
    (synchronous) and [async_transaction] (asynchronous).

    A decorated call is modelled as a computation over the state of the
    outside world (database, pool, whatever the wrapped callable touches)
    that yields an outcome (a returned value or a raised exception) and the
    list of boundary actions the wrapper performed, in program order:
    pool checkout and release, transaction begin / commit / rollback, log
    calls, and the invocation of the wrapped callable.  Each action is
    recorded with its own outcome, so that "the callable raised [e]" or
    "the commit raised [e]" is a fact about the trace of the call.

    The pool, the connection, the driver and the logger are not part of the
    source tree: they are parameters, with the shape section 6 of the
    specification gives them.  A coroutine is run to completion at each
    [await]; a cancellation is the exception the awaited call raises. *)

From Stdlib Require Import ZArith.
From stdpp Require Import gmap strings list.

Open Scope string_scope.
Open Scope Z_scope.
Open Scope list_scope.

(** ** Python values, as far as the decorators inspect them *)

(** An exception object. [exn_is_Exception] is [isinstance(e, Exception)]:
    KeyboardInterrupt, SystemExit, GeneratorExit and asyncio.CancelledError
    derive from BaseException only, and [except Exception] lets them pass. *)
Record exn : Type := Exn {
  exn_type : string;
  exn_msg : string;
  exn_is_Exception : bool
}.

(** Objects handled by identity.  A connection is an object of the
    driver's connection class: [conn_obj] tells the objects of a run apart,
    and [conn_addr] is where the object lives.  Two objects alive at the
    same time live at different addresses; an object created after another
    one was freed may live where that one did. *)
Record connection : Type := Conn {
  conn_class : string;
  conn_obj : Z;
  conn_addr : Z
}.
Record pool : Type := Pool { pool_addr : Z }.
Record logger : Type := Logger { logger_addr : Z }.

(** Python's [id(conn)]: the address of the object, the same for as long as
    the object lives and, across lifetimes that do not overlap, not
    necessarily different for different objects. *)
Definition py_id (c : connection) : Z := conn_addr c.

(** An instance of the class named [inst_class], with the two attributes
    the decorators probe and its truth value (an object may define
    [__bool__] or [__len__]). *)
Record instance : Type := Inst {
  inst_class : string;
  inst_pool : option pool;
  inst_logger : option logger;
  inst_truthy : bool
}.

Inductive value : Type :=
| VNone
| VBool (b : bool)
| VInt (z : Z)
| VStr (s : string)
| VConn (c : connection)
| VInst (o : instance).

(** [bool(v)], as used by [or]. *)
Definition truthy (v : value) : bool :=
  match v with
  | VNone => false
  | VBool b => b
  | VInt z => negb (z =? 0)
  | VStr s => negb (String.eqb s EmptyString)
  | VConn _ => true
  | VInst o => inst_truthy o
  end.

(** [v.pool] and [v.logger], when the attribute exists. *)
Definition pool_of (v : value) : option pool :=
  match v with VInst o => inst_pool o | _ => None end.
Definition logger_of (v : value) : option logger :=
  match v with VInst o => inst_logger o | _ => None end.

(** [hasattr(v, a)]. *)
Definition hasattr (v : value) (a : string) : bool :=
  if String.eqb a "pool" then
    match pool_of v with Some _ => true | None => false end
  else if String.eqb a "logger" then
    match logger_of v with Some _ => true | None => false end
  else false.

Inductive outcome (A : Type) : Type :=
| Return (a : A)
| Raise (e : exn).
Arguments Return {A} a.
Arguments Raise {A} e.

Definition IndexError : exn :=
  Exn "IndexError" "tuple index out of range" true.

(** [type(v).__name__] *)
Definition type_name (v : value) : string :=
  match v with
  | VNone => "NoneType"
  | VBool _ => "bool"
  | VInt _ => "int"
  | VStr _ => "str"
  | VConn c => conn_class c
  | VInst o => inst_class o
  end.

(** What [v.a] raises when [v] has no attribute [a]; the message is
    ['C' object has no attribute 'a'], with the class name cut at its first
    hundred characters. *)
Definition AttributeError (v : value) (a : string) : exn :=
  Exn "AttributeError"
    (String.append "'"
       (String.append (String.substring 0%nat 100%nat (type_name v))
          (String.append "' object has no attribute '"
             (String.append a "'"))))
    true.

(** Keyword arguments: a dict from names to values. *)
Abbreviation kwargs_t := (gmap string value).

(** ** Boundary actions *)

(** Modelled from the spec: [pgmq.logger.PGMQLogger] is not in the source
    tree.  Section 6: the logger accepts three event kinds, each tagged with
    an operation name and a connection identifier; error events also carry
    the triggering exception. *)
Inductive log_event : Type :=
| TransactionStart (name : string) (conn_id : Z)
| TransactionSuccess (name : string) (conn_id : Z)
| TransactionError (name : string) (e : exn) (conn_id : Z).

Inductive event : Type :=
| EAcquire (p : pool) (r : outcome connection)
| ERelease (p : pool) (c : connection)
| EBegin (c : connection) (r : outcome unit)
| ECommit (c : connection) (r : outcome unit)
| ERollback (c : connection) (r : outcome unit)
| ELog (lg : logger) (ev : log_event)
| EInvoke (args : list value) (kwargs : kwargs_t) (r : outcome value).

Section Semantics.

(** The state of everything outside the wrapper. *)
Context {Env : Type}.

(** ** A computation: state passing, an outcome, and the actions done *)
Definition M (A : Type) : Type := Env -> outcome A * list event * Env.

Definition ret {A} (a : A) : M A := fun s => (Return a, [], s).
Definition raise {A} (e : exn) : M A := fun s => (Raise e, [], s).

Definition bind {A B} (m : M A) (k : A -> M B) : M B := fun s =>
  match m s with
  | (Return a, t1, s1) => let '(r, t2, s2) := k a s1 in (r, t1 ++ t2, s2)
  | (Raise e, t1, s1) => (Raise e, t1, s1)
  end.

(** A call across the boundary, recorded with its outcome. *)
Definition perform {A} (op : Env -> outcome A * Env)
    (ev : outcome A -> event) : M A := fun s =>
  let '(r, s1) := op s in (r, [ev r], s1).

Definition emit (ev : event) : M unit := fun s => (Return tt, [ev], s).

(** [try: body / except Exception as e: handler e].  Only instances of
    [Exception] are caught; an exception raised by the handler replaces
    the one being handled. *)
Definition try_except_Exception {A} (body : M A) (handler : exn -> M A)
    : M A := fun s =>
  match body s with
  | (Return a, t1, s1) => (Return a, t1, s1)
  | (Raise e, t1, s1) =>
      if exn_is_Exception e
      then let '(r, t2, s2) := handler e s1 in (r, t1 ++ t2, s2)
      else (Raise e, t1, s1)
  end.

(** [with cm as x: body x].  Entering may raise, and then the body and the
    exit are skipped.  The exit sees how the body ended. *)
Definition with_ {A B} (enter : M B)
    (exit : B -> outcome A -> Env -> list event * Env)
    (body : B -> M A) : M A := fun s =>
  match enter s with
  | (Raise e, t0, s0) => (Raise e, t0, s0)
  | (Return x, t0, s0) =>
      let '(r, t1, s1) := body x s0 in
      let '(t2, s2) := exit x r s1 in
      (r, t0 ++ t1 ++ t2, s2)
  end.

End Semantics.

Arguments M : clear implicits.

Declare Scope py_scope.
Delimit Scope py_scope with py.
Notation "'let!' x ':=' m 'in' k" := (bind m (fun x => k))
  (at level 10, x name, m at level 100, k at level 200) : py_scope.
Notation "'do!' m 'in' k" := (bind m (fun _ => k))
  (at level 10, m at level 100, k at level 200) : py_scope.
Open Scope py_scope.

(** ** The collaborators

    Neither the pool, the connection nor the driver is part of the source
    tree; the decorators only call them.  Each call is a parameter acting on
    the outside state. *)

(** Modelled from the spec: the synchronous pool and connection.  Section 6:
    scoped acquisition of a connection (context-managed checkout) and, for
    each connection, a nested scoped transaction (context-managed).
    Section 4.1: release is guaranteed on all exit paths, commit is implicit
    in the scoped transaction's normal exit, and the scoped transaction
    rolls back on exit when an exception passes through it.  Entering either
    scope may raise (section 7, acquisition failures); the exits complete
    and let the exception, if any, pass. *)
Record sync_driver (Env : Type) : Type := SyncDriver {
  connection_enter : pool -> Env -> outcome connection * Env;
  connection_exit : pool -> connection -> Env -> Env;
  transaction_enter : connection -> Env -> outcome unit * Env;
  transaction_exit_commit : connection -> Env -> Env;
  transaction_exit_rollback : connection -> Env -> Env
}.
Arguments connection_enter {Env} _ _ _.
Arguments connection_exit {Env} _ _ _ _.
Arguments transaction_enter {Env} _ _ _.
Arguments transaction_exit_commit {Env} _ _ _.
Arguments transaction_exit_rollback {Env} _ _ _.

(** Modelled from the spec: the asynchronous pool and connection.  Section 6:
    awaited acquire with scoped release, and explicit start / commit /
    rollback calls on the transaction object.  Every awaited call may raise
    (a driver error, a timeout, or the cancellation of the awaiting task);
    the scoped release completes. *)
Record async_driver (Env : Type) : Type := AsyncDriver {
  acquire : pool -> Env -> outcome connection * Env;
  release : pool -> connection -> Env -> Env;
  txn_start : connection -> Env -> outcome unit * Env;
  txn_commit : connection -> Env -> outcome unit * Env;
  txn_rollback : connection -> Env -> outcome unit * Env
}.
Arguments acquire {Env} _ _ _.
Arguments release {Env} _ _ _ _.
Arguments txn_start {Env} _ _ _.
Arguments txn_commit {Env} _ _ _.
Arguments txn_rollback {Env} _ _ _.

(** The wrapped callable: its [__name__] and what calling it with positional
    and keyword arguments does to the outside state. *)
Record pyfunc (Env : Type) : Type := PyFunc {
  fn_name : string;
  fn_call : list value -> kwargs_t -> Env -> outcome value * Env
}.
Arguments fn_name {Env} _.
Arguments fn_call {Env} _ _ _ _.

Section Decorators.

Context {Env : Type}.

(** The call of [func] on [args] and [kwargs] *)
Definition invoke (func : pyfunc Env) (args : list value)
    (kwargs : kwargs_t) : M Env value :=
  perform (fn_call func args kwargs) (EInvoke args kwargs).

(** [o.pool] and [o.logger] *)
Definition getattr_pool (o : value) : M Env pool :=
  match pool_of o with
  | Some p => ret p
  | None => raise (AttributeError o "pool")
  end.

Definition getattr_logger (o : value) : M Env logger :=
  match logger_of o with
  | Some lg => ret lg
  | None => raise (AttributeError o "logger")
  end.

(** [PGMQLogger.log_transaction_start(o.logger, name, conn_id=cid)] and
    its two siblings; the first argument is evaluated at each call. *)
Definition log_transaction_start (o : value) (name : string) (cid : Z)
    : M Env unit :=
  let! lg := getattr_logger o in emit (ELog lg (TransactionStart name cid)).

Definition log_transaction_success (o : value) (name : string) (cid : Z)
    : M Env unit :=
  let! lg := getattr_logger o in emit (ELog lg (TransactionSuccess name cid)).

Definition log_transaction_error (o : value) (name : string) (e : exn)
    (cid : Z) : M Env unit :=
  let! lg := getattr_logger o in emit (ELog lg (TransactionError name e cid)).

(** [args[0]] *)
Definition args0 (args : list value) : M Env value :=
  match args with
  | a :: _ => ret a
  | [] => raise IndexError
  end.

(** [kwargs.get(k)] *)
Definition kwargs_get (kwargs : kwargs_t) (k : string) : value :=
  default VNone (kwargs !! k).

(** ** The synchronous decorator *)
Section Sync.

Variable db : sync_driver Env.

(** [with p.connection() as conn: body conn] *)
Definition with_connection {A} (p : pool) (body : connection -> M Env A)
    : M Env A :=
  with_ (perform (connection_enter db p) (EAcquire p))
        (fun c _ s => ([ERelease p c], connection_exit db p c s))
        body.

(** [with conn.transaction(): body] *)
Definition with_transaction {A} (c : connection) (body : M Env A)
    : M Env A :=
  with_ (perform (transaction_enter db c) (EBegin c))
        (fun _ r s =>
           match r with
           | Return _ =>
               ([ECommit c (Return tt)], transaction_exit_commit db c s)
           | Raise _ =>
               ([ERollback c (Return tt)], transaction_exit_rollback db c s)
           end)
        (fun _ => body).

(** Lines 16-32 of the source, and again lines 40-56 with [queue] in the
    place of [self]: the two copies differ in that name only, [owner]
    here. *)
Definition in_transaction (func : pyfunc Env) (owner : value)
    (args : list value) (kwargs : kwargs_t) : M Env value :=
  let! p := getattr_pool owner in
  with_connection p (fun conn =>
    with_transaction conn (
      do! log_transaction_start owner (fn_name func) (py_id conn) in
      try_except_Exception
        (let kwargs' := <["conn" := VConn conn]> kwargs in
         let! result := invoke func args kwargs' in
         do! log_transaction_success owner (fn_name func) (py_id conn) in
         ret result)
        (fun e =>
           do! log_transaction_error owner (fn_name func) e (py_id conn) in
           raise e))).

(** [args and hasattr(args[0], "pool") and hasattr(args[0], "logger")] *)
Definition is_receiver (args : list value) : bool :=
  match args with
  | [] => false
  | a :: _ => hasattr a "pool" && hasattr a "logger"
  end.

(** [kwargs.get("queue") or args[0]] *)
Definition queue_of (args : list value) (kwargs : kwargs_t)
    : M Env value :=
  let q := kwargs_get kwargs "queue" in
  if truthy q then ret q else args0 args.

(** [transaction(func)] is the wrapper, a function of [*args] and
    [**kwargs]. *)
Definition transaction (func : pyfunc Env) (args : list value)
    (kwargs : kwargs_t) : M Env value :=
  if is_receiver args then
    let! self := args0 args in
    match kwargs !! "conn" with
    | None => in_transaction func self args kwargs
    | Some _ => invoke func args kwargs
    end
  else
    let! queue := queue_of args kwargs in
    match kwargs !! "conn" with
    | None => in_transaction func queue args kwargs
    | Some _ => invoke func args kwargs
    end.

End Sync.

(** ** The asynchronous decorator *)
Section Async.

Variable db : async_driver Env.

(** [async with p.acquire() as conn: body conn] *)
Definition async_with_acquire {A} (p : pool)
    (body : connection -> M Env A) : M Env A :=
  with_ (perform (acquire db p) (EAcquire p))
        (fun c _ s => ([ERelease p c], release db p c s))
        body.

(** [async_transaction(func)] is the wrapper, a coroutine function of
    [self], [*args] and [**kwargs]; each [await] is run to completion. *)
Definition async_transaction (func : pyfunc Env) (self : value)
    (args : list value) (kwargs : kwargs_t) : M Env value :=
  match kwargs !! "conn" with
  | None =>
      let! p := getattr_pool self in
      async_with_acquire p (fun conn =>
        do! perform (txn_start db conn) (EBegin conn) in
        do! log_transaction_start self (fn_name func) (py_id conn) in
        try_except_Exception
          (let kwargs' := <["conn" := VConn conn]> kwargs in
           let! result := invoke func (self :: args) kwargs' in
           do! perform (txn_commit db conn) (ECommit conn) in
           do! log_transaction_success self (fn_name func) (py_id conn) in
           ret result)
          (fun e =>
             do! perform (txn_rollback db conn) (ERollback conn) in
             do! log_transaction_error self (fn_name func) e (py_id conn) in
             raise e))
  | Some _ => invoke func (self :: args) kwargs
  end.

End Async.

End Decorators.

(** ** Reading a run *)

Definition result_of {Env A} (x : outcome A * list event * Env) : outcome A :=
  fst (fst x).
Definition trace_of {Env A} (x : outcome A * list event * Env) : list event :=
  snd (fst x).
Definition state_of {Env A} (x : outcome A * list event * Env) : Env :=
  snd x.

(** Two calls made one after the other by a caller that goes on whatever
    the first one did: [after m1 m2] is the run of the second call, which
    starts in the state the first one left. *)
Definition after {Env A B} (m1 : M Env A) (m2 : M Env B) (s : Env)
    : outcome B * list event * Env :=
  m2 (state_of (m1 s)).

Definition is_acquire (ev : event) : bool :=
  match ev with EAcquire _ _ => true | _ => false end.
Definition is_acquired (ev : event) : bool :=
  match ev with EAcquire _ (Return _) => true | _ => false end.
Definition is_begin (ev : event) : bool :=
  match ev with EBegin _ _ => true | _ => false end.
Definition is_begun (ev : event) : bool :=
  match ev with EBegin _ (Return _) => true | _ => false end.
Definition is_rollback (ev : event) : bool :=
  match ev with ERollback _ _ => true | _ => false end.
Definition is_invoke (ev : event) : bool :=
  match ev with EInvoke _ _ _ => true | _ => false end.
Definition is_log (ev : event) : bool :=
  match ev with ELog _ _ => true | _ => false end.
Definition is_success_log (ev : event) : bool :=
  match ev with ELog _ (TransactionSuccess _ _) => true | _ => false end.
Definition is_error_log (ev : event) : bool :=
  match ev with ELog _ (TransactionError _ _ _) => true | _ => false end.

Definition count (f : event -> bool) (tr : list event) : nat :=
  length (List.filter f tr).

(** The connection identifiers carried by the log events of a trace. *)
Definition log_conn_id (ev : log_event) : Z :=
  match ev with
  | TransactionStart _ cid => cid
  | TransactionSuccess _ cid => cid
  | TransactionError _ _ cid => cid
  end.

Fixpoint logged_conn_ids (tr : list event) : list Z :=
  match tr with
  | [] => []
  | ELog _ ev :: tr' => log_conn_id ev :: logged_conn_ids tr'
  | _ :: tr' => logged_conn_ids tr'
  end.

(** ** The resolution rule, in the words of the specification

    Section 4.1: if the first positional argument exposes both a connection
    pool and a logger, it is the receiver; otherwise the owner is a
    queue-client instance obtained from the [queue] keyword argument or,
    failing that (the keyword is absent or its value is false), from the
    first positional argument.  [None]: there is nothing to take. *)
Definition exposes_pool_and_logger (v : value) : bool :=
  match pool_of v, logger_of v with
  | Some _, Some _ => true
  | _, _ => false
  end.

Definition queue_keyword_or_first (args : list value) (kwargs : kwargs_t)
    : option value :=
  match kwargs !! "queue" with
  | Some q => if truthy q then Some q else head args
  | None => head args
  end.

Definition owner_by_rule (args : list value) (kwargs : kwargs_t)
    : option value :=
  match head args with
  | Some a =>
      if exposes_pool_and_logger a then Some a
      else queue_keyword_or_first args kwargs
  | None => queue_keyword_or_first args kwargs
  end.

(** ** The runs of the transactional path

    What a call that opens its own transaction can do, case by case, as a
    relation between the outcome and the trace.  [name] is the wrapped
    callable's name and [owner] the object whose pool and logger are used. *)

Inductive sync_run (name : string) (owner : value) (args : list value)
    (kwargs : kwargs_t) : outcome value -> list event -> Prop :=
| SyncNoPool :
    pool_of owner = None ->
    sync_run name owner args kwargs (Raise (AttributeError owner "pool")) []
| SyncAcquireRaises p e :
    pool_of owner = Some p ->
    sync_run name owner args kwargs (Raise e) [EAcquire p (Raise e)]
| SyncBeginRaises p c e :
    pool_of owner = Some p ->
    sync_run name owner args kwargs (Raise e)
      [EAcquire p (Return c); EBegin c (Raise e); ERelease p c]
| SyncNoLogger p c :
    pool_of owner = Some p ->
    logger_of owner = None ->
    sync_run name owner args kwargs (Raise (AttributeError owner "logger"))
      [EAcquire p (Return c); EBegin c (Return tt);
       ERollback c (Return tt); ERelease p c]
| SyncSuccess p lg c v :
    pool_of owner = Some p ->
    logger_of owner = Some lg ->
    sync_run name owner args kwargs (Return v)
      [EAcquire p (Return c); EBegin c (Return tt);
       ELog lg (TransactionStart name (py_id c));
       EInvoke args (<["conn" := VConn c]> kwargs) (Return v);
       ELog lg (TransactionSuccess name (py_id c));
       ECommit c (Return tt); ERelease p c]
| SyncError p lg c e :
    pool_of owner = Some p ->
    logger_of owner = Some lg ->
    exn_is_Exception e = true ->
    sync_run name owner args kwargs (Raise e)
      [EAcquire p (Return c); EBegin c (Return tt);
       ELog lg (TransactionStart name (py_id c));
       EInvoke args (<["conn" := VConn c]> kwargs) (Raise e);
       ELog lg (TransactionError name e (py_id c));
       ERollback c (Return tt); ERelease p c]
| SyncBaseException p lg c e :
    pool_of owner = Some p ->
    logger_of owner = Some lg ->
    exn_is_Exception e = false ->
    sync_run name owner args kwargs (Raise e)
      [EAcquire p (Return c); EBegin c (Return tt);
       ELog lg (TransactionStart name (py_id c));
       EInvoke args (<["conn" := VConn c]> kwargs) (Raise e);
       ERollback c (Return tt); ERelease p c].

Inductive async_run (name : string) (self : value) (args : list value)
    (kwargs : kwargs_t) : outcome value -> list event -> Prop :=
| AsyncNoPool :
    pool_of self = None ->
    async_run name self args kwargs (Raise (AttributeError self "pool")) []
| AsyncAcquireRaises p e :
    pool_of self = Some p ->
    async_run name self args kwargs (Raise e) [EAcquire p (Raise e)]
| AsyncStartRaises p c e :
    pool_of self = Some p ->
    async_run name self args kwargs (Raise e)
      [EAcquire p (Return c); EBegin c (Raise e); ERelease p c]
| AsyncNoLogger p c :
    pool_of self = Some p ->
    logger_of self = None ->
    async_run name self args kwargs (Raise (AttributeError self "logger"))
      [EAcquire p (Return c); EBegin c (Return tt); ERelease p c]
| AsyncSuccess p lg c v :
    pool_of self = Some p ->
    logger_of self = Some lg ->
    async_run name self args kwargs (Return v)
      [EAcquire p (Return c); EBegin c (Return tt);
       ELog lg (TransactionStart name (py_id c));
       EInvoke (self :: args) (<["conn" := VConn c]> kwargs) (Return v);
       ECommit c (Return tt);
       ELog lg (TransactionSuccess name (py_id c));
       ERelease p c]
| AsyncCommitError p lg c v e :
    pool_of self = Some p ->
    logger_of self = Some lg ->
    exn_is_Exception e = true ->
    async_run name self args kwargs (Raise e)
      [EAcquire p (Return c); EBegin c (Return tt);
       ELog lg (TransactionStart name (py_id c));
       EInvoke (self :: args) (<["conn" := VConn c]> kwargs) (Return v);
       ECommit c (Raise e);
       ERollback c (Return tt);
       ELog lg (TransactionError name e (py_id c));
       ERelease p c]
| AsyncCommitErrorRollbackRaises p lg c v e e' :
    pool_of self = Some p ->
    logger_of self = Some lg ->
    exn_is_Exception e = true ->
    async_run name self args kwargs (Raise e')
      [EAcquire p (Return c); EBegin c (Return tt);
       ELog lg (TransactionStart name (py_id c));
       EInvoke (self :: args) (<["conn" := VConn c]> kwargs) (Return v);
       ECommit c (Raise e);
       ERollback c (Raise e');
       ERelease p c]
| AsyncCommitBaseException p lg c v e :
    pool_of self = Some p ->
    logger_of self = Some lg ->
    exn_is_Exception e = false ->
    async_run name self args kwargs (Raise e)
      [EAcquire p (Return c); EBegin c (Return tt);
       ELog lg (TransactionStart name (py_id c));
       EInvoke (self :: args) (<["conn" := VConn c]> kwargs) (Return v);
       ECommit c (Raise e);
       ERelease p c]
| AsyncError p lg c e :
    pool_of self = Some p ->
    logger_of self = Some lg ->
    exn_is_Exception e = true ->
    async_run name self args kwargs (Raise e)
      [EAcquire p (Return c); EBegin c (Return tt);
       ELog lg (TransactionStart name (py_id c));
       EInvoke (self :: args) (<["conn" := VConn c]> kwargs) (Raise e);
       ERollback c (Return tt);
       ELog lg (TransactionError name e (py_id c));
       ERelease p c]
| AsyncErrorRollbackRaises p lg c e e' :
    pool_of self = Some p ->
    logger_of self = Some lg ->
    exn_is_Exception e = true ->
    async_run name self args kwargs (Raise e')
      [EAcquire p (Return c); EBegin c (Return tt);
       ELog lg (TransactionStart name (py_id c));
       EInvoke (self :: args) (<["conn" := VConn c]> kwargs) (Raise e);
       ERollback c (Raise e');
       ERelease p c]
| AsyncBaseException p lg c e :
    pool_of self = Some p ->
    logger_of self = Some lg ->
    exn_is_Exception e = false ->
    async_run name self args kwargs (Raise e)
      [EAcquire p (Return c); EBegin c (Return tt);
       ELog lg (TransactionStart name (py_id c));
       EInvoke (self :: args) (<["conn" := VConn c]> kwargs) (Raise e);
       ERelease p c].

(** ** Concrete collaborators, to run the decorators on *)

Module Scenario.

(** The outside state: the idle connections of the pool, oldest first. *)
Definition world : Type := list connection.

Definition PoolTimeout : exn :=
  Exn "PoolTimeout" "couldn't get a connection" true.
Definition ValueError : exn := Exn "ValueError" "invalid message" true.
Definition OperationalError : exn :=
  Exn "OperationalError" "could not commit" true.
Definition InterfaceError : exn :=
  Exn "InterfaceError" "cannot rollback; the transaction is in error state"
    true.
Definition KeyboardInterrupt : exn := Exn "KeyboardInterrupt" EmptyString false.
Definition CancelledError : exn := Exn "CancelledError" EmptyString false.

(** Check out the oldest idle connection; time out when there is none. *)
Definition checkout (p : pool) (w : world) : outcome connection * world :=
  match w with
  | c :: w' => (Return c, w')
  | [] => (Raise PoolTimeout, [])
  end.

(** A returned connection queues up behind the idle ones. *)
Definition checkin (p : pool) (c : connection) (w : world) : world :=
  w ++ [c].

Definition sync_pool : sync_driver world :=
  SyncDriver world checkout checkin
    (fun _ w => (Return tt, w)) (fun _ w => w) (fun _ w => w).

(** An asynchronous driver whose commit and rollback end as given. *)
Definition async_pool (commit_result rollback_result : outcome unit)
    : async_driver world :=
  AsyncDriver world checkout checkin
    (fun _ w => (Return tt, w))
    (fun _ w => (commit_result, w))
    (fun _ w => (rollback_result, w)).

Definition the_pool : pool := Pool 1.
Definition the_logger : logger := Logger 2.
Definition queue_client : value :=
  VInst (Inst "QueueClient" (Some the_pool) (Some the_logger) true).

Definition conn_a : connection := Conn "Connection" 1 140001.
Definition conn_b : connection := Conn "Connection" 2 140002.

Definition send_ok : pyfunc world :=
  PyFunc world "send" (fun _ _ w => (Return (VInt 1), w)).
Definition send_raising (e : exn) : pyfunc world :=
  PyFunc world "send" (fun _ _ w => (Raise e, w)).

End Scenario.

(** ** A decorated function as a callable

    Source: [functools.wraps(func)] and [return wrapper], lines 10, 60, 66
    and 92.  The wrapper a decorator returns is itself a callable, with the
    [__name__] and the [__qualname__] of the function it wraps, and it can
    be decorated in turn.  Calling it runs the wrapper, whose actions across
    the boundary are actions of the call: a callable is a computation, and
    the decorators are given here for any callable. *)

Record callable (Env : Type) : Type := Callable {
  c_name : string;
  c_qualname : string;
  c_call : list value -> kwargs_t -> M Env value
}.
Arguments c_name {Env} _.
Arguments c_qualname {Env} _.
Arguments c_call {Env} _ _ _.

(** A function that is not a wrapper: calling it is the one action
    [invoke] records. *)
Definition plain {Env} (qualname : string) (func : pyfunc Env)
    : callable Env :=
  Callable Env (fn_name func) qualname (invoke func).

(** [functools.wraps(func)(wrapper)] *)
Definition functools_wraps {Env} (func : callable Env)
    (wrapper : list value -> kwargs_t -> M Env value) : callable Env :=
  Callable Env (c_name func) (c_qualname func) wrapper.

Definition TypeError (msg : string) : exn := Exn "TypeError" msg true.

Section DecoratedCallables.

Context {Env : Type}.

(** Lines 16-32 and 40-56, as [in_transaction], for a callable. *)
Definition in_transaction_of (db : sync_driver Env) (func : callable Env)
    (owner : value) (args : list value) (kwargs : kwargs_t) : M Env value :=
  let! p := getattr_pool owner in
  with_connection db p (fun conn =>
    with_transaction db conn (
      do! log_transaction_start owner (c_name func) (py_id conn) in
      try_except_Exception
        (let kwargs' := <["conn" := VConn conn]> kwargs in
         let! result := c_call func args kwargs' in
         do! log_transaction_success owner (c_name func) (py_id conn) in
         ret result)
        (fun e =>
           do! log_transaction_error owner (c_name func) e (py_id conn) in
           raise e))).

(** Lines 11-58: [wrapper], a function of any positional and keyword
    arguments, as [transaction], for a callable. *)
Definition sync_wrapper (db : sync_driver Env) (func : callable Env)
    (args : list value) (kwargs : kwargs_t) : M Env value :=
  if is_receiver args then
    let! self := args0 args in
    match kwargs !! "conn" with
    | None => in_transaction_of db func self args kwargs
    | Some _ => c_call func args kwargs
    end
  else
    let! queue := queue_of args kwargs in
    match kwargs !! "conn" with
    | None => in_transaction_of db func queue args kwargs
    | Some _ => c_call func args kwargs
    end.

(** Lines 7-60: [transaction(func)] *)
Definition transaction_decorator (db : sync_driver Env)
    (func : callable Env) : callable Env :=
  functools_wraps func (sync_wrapper db func).

(** Lines 68-90: the body of [wrapper(self, *args, **kwargs)], as
    [async_transaction], for a callable. *)
Definition async_wrapper (db : async_driver Env) (func : callable Env)
    (self : value) (args : list value) (kwargs : kwargs_t) : M Env value :=
  match kwargs !! "conn" with
  | None =>
      let! p := getattr_pool self in
      async_with_acquire db p (fun conn =>
        do! perform (txn_start db conn) (EBegin conn) in
        do! log_transaction_start self (c_name func) (py_id conn) in
        try_except_Exception
          (let kwargs' := <["conn" := VConn conn]> kwargs in
           let! result := c_call func (self :: args) kwargs' in
           do! perform (txn_commit db conn) (ECommit conn) in
           do! log_transaction_success self (c_name func) (py_id conn) in
           ret result)
          (fun e =>
             do! perform (txn_rollback db conn) (ERollback conn) in
             do! log_transaction_error self (c_name func) e (py_id conn) in
             raise e))
  | Some _ => c_call func (self :: args) kwargs
  end.

(** Line 67: the parameters [self, *args, **kwargs] bound to the arguments
    of a call.  The first positional argument is [self]; without positional
    arguments [self] is taken from the keywords; both at once, or none, is
    a [TypeError] raised by the call itself, in the wording of Python 3.10
    and later, which names the function by its [__qualname__]. *)
Definition bind_self (qualname : string) (args : list value)
    (kwargs : kwargs_t) : M Env (value * list value * kwargs_t) :=
  match args, kwargs !! "self" with
  | self :: rest, None => ret (self, rest, kwargs)
  | _ :: _, Some _ =>
      raise (TypeError (String.append qualname
                          "() got multiple values for argument 'self'"))
  | [], Some self => ret (self, [], delete "self" kwargs)
  | [], None =>
      raise (TypeError
               (String.append qualname
                  "() missing 1 required positional argument: 'self'"))
  end.

(** Lines 63-92: [async_transaction(func)] *)
Definition async_transaction_decorator (db : async_driver Env)
    (func : callable Env) : callable Env :=
  functools_wraps func (fun args kwargs =>
    let! bound := bind_self (c_qualname func) args kwargs in
    let '(self, rest, kwargs') := bound in
    async_wrapper db func self rest kwargs').

End DecoratedCallables.

Definition is_commit (ev : event) : bool :=
  match ev with ECommit _ _ => true | _ => false end.
Definition is_release (ev : event) : bool :=
  match ev with ERelease _ _ => true | _ => false end.

(** Collaborators that fail where [Scenario]'s do not. *)

Module Faults.

(** A connection on which no transaction can be begun. *)
Definition sync_begin_fails : sync_driver Scenario.world :=
  SyncDriver Scenario.world Scenario.checkout Scenario.checkin
    (fun _ w => (Raise Scenario.OperationalError, w))
    (fun _ w => w) (fun _ w => w).

Definition async_start_fails : async_driver Scenario.world :=
  AsyncDriver Scenario.world Scenario.checkout Scenario.checkin
    (fun _ w => (Raise Scenario.OperationalError, w))
    (fun _ w => (Return tt, w))
    (fun _ w => (Return tt, w)).

(** A pool that keeps no connection: the world is the connections it will
    open, in order, and a connection that is given back is closed and
    freed. *)
Definition sync_pool_closing : sync_driver Scenario.world :=
  SyncDriver Scenario.world Scenario.checkout (fun _ _ w => w)
    (fun _ w => (Return tt, w)) (fun _ w => w) (fun _ w => w).

(** A connection opened after [Scenario.conn_a] was freed, at the address
    that one had. *)
Definition conn_reusing_a : connection := Conn "Connection" 3 140001.

(** A queue client with a pool and no logger. *)
Definition client_without_logger : value :=
  VInst (Inst "QueueClient" (Some Scenario.the_pool) None true).

End Faults.

(** ** The in-memory queue of the test-suite

    Source: [tests/test_api.py], class [FakeQueue], lines 15-87: a
    dictionary from queue names to lists of messages, oldest first, and the
    next identifier to issue. *)

Module FakeQueue.

(** *** The names the test module imports

    Source: [tests/test_api.py], lines 7-12, and [src/pgmq/__init__.py].
    With the test client of line 8 importable, line 9 takes three names
    from the package [pgmq], binding them one after the other; the first
    name the package does not have raises [ImportError], lines 11-12
    swallow it, and the names after it stay unbound. *)

(** The names the package [pgmq] has once its [__init__] has run: those
    lines 1, 3, 4, 7 and 15 bind, and the submodules that lines 3 and 4
    load, [pgmq.logger] through line 4 of [decorators.py]. *)
Definition pgmq_names : list string :=
  ["Optional"; "Message"; "PGMQueue"; "transaction"; "async_transaction";
   "create_app"; "__all__"; "queue"; "decorators"; "logger"].

(** [from module import names], up to the first missing name. *)
Fixpoint from_import (module : list string) (names : list string)
    : list string :=
  match names with
  | [] => []
  | n :: ns =>
      if bool_decide (n ∈ module) then n :: from_import module ns else []
  end.

(** Line 9: [from pgmq import Message, QueueMetrics, create_app] *)
Definition imported : list string :=
  from_import pgmq_names ["Message"; "QueueMetrics"; "create_app"].

(** What looking up a global name that is not bound raises. *)
Definition NameError (name : string) : exn :=
  Exn "NameError"
    (String.append "name '" (String.append name "' is not defined")) true.

Section Model.

(** The message payload, a JSON object the queue never looks into. *)
Context {Payload : Type}.

(** [datetime.now(timezone.utc)]: the clock at its n-th reading. *)
Variable now_at : nat -> Z.

(** Modelled from the spec: [pgmq.Message] comes from [pgmq.queue], which
    is not in the source tree; line 9 binds the name before the import
    fails.  Section 3: identifier, read count, enqueue timestamp,
    visibility-timeout timestamp and payload; the field names are those of
    the constructor call in [send]. *)
Record Message : Type := mkMessage {
  msg_id : Z;
  read_ct : Z;
  enqueued_at : Z;
  vt : Z;
  message : Payload
}.

(** Modelled from the spec: the class [QueueMetrics] that [metrics] names
    is not in the source tree, and the package does not export it.
    Section 3: queue name, current length, age of the newest and of the
    oldest message, total of messages, scrape timestamp; the field names are
    those of the constructor call in [metrics]. *)
Record QueueMetrics : Type := mkQueueMetrics {
  queue_name : string;
  queue_length : Z;
  newest_msg_age_sec : Z;
  oldest_msg_age_sec : Z;
  total_messages : Z;
  scrape_time : Z
}.

(** The object and the clock it reads.  [queues] is the dict [_queues], in
    insertion order, which is the order Python iterates it in. *)
Record t : Type := mkFakeQueue {
  queues : list (string * list Message);
  next_id : Z;
  clock : nat
}.

(** [FakeQueue()] *)
Definition new (clock0 : nat) : t :=
  {| queues := []; next_id := 1; clock := clock0 |}.

Fixpoint lookup_queue (name : string) (qs : list (string * list Message))
    : option (list Message) :=
  match qs with
  | [] => None
  | (k, l) :: qs' => if String.eqb k name then Some l else lookup_queue name qs'
  end.

(** [qs[name] = l] for a key that is present. *)
Fixpoint store_queue (name : string) (l : list Message)
    (qs : list (string * list Message)) : list (string * list Message) :=
  match qs with
  | [] => []
  | (k, l0) :: qs' =>
      if String.eqb k name then (k, l) :: qs'
      else (k, l0) :: store_queue name l qs'
  end.

(** [self._queues.setdefault(queue, [])] *)
Definition _ensure_queue (st : t) (queue : string) : t :=
  match lookup_queue queue (queues st) with
  | Some _ => st
  | None =>
      {| queues := queues st ++ [(queue, [])];
         next_id := next_id st; clock := clock st |}
  end.

(** [self._queues[queue]]; every such access follows [_ensure_queue]. *)
Definition getitem (st : t) (queue : string) : list Message :=
  default [] (lookup_queue queue (queues st)).

(** The list [self._queues[queue]] changed in place to [l]. *)
Definition setitem (st : t) (queue : string) (l : list Message) : t :=
  {| queues := store_queue queue l (queues st);
     next_id := next_id st; clock := clock st |}.

(** [list_queues] *)
Definition list_queues (st : t) : list string := fst <$> queues st.

(** [send]; the parameters [delay], [tz] and [conn] are not used. *)
Definition send (st : t) (queue : string) (payload : Payload) : Z * t :=
  let st1 := _ensure_queue st queue in
  let id := next_id st1 in
  let now := now_at (clock st1) in
  let m := mkMessage id 0 now now payload in
  (id,
   {| queues := store_queue queue (getitem st1 queue ++ [m]) (queues st1);
      next_id := id + 1;
      clock := S (clock st1) |}).

(** [send_batch]: one [send] per message, in order. *)
Fixpoint send_batch (st : t) (queue : string) (messages : list Payload)
    : list Z * t :=
  match messages with
  | [] => ([], st)
  | m :: ms =>
      let '(id, st1) := send st queue m in
      let '(ids, st2) := send_batch st1 queue ms in
      (id :: ids, st2)
  end.

(** The slice [l[:n]] of Python: a negative [n] counts from the end. *)
Definition slice_to {A} (n : Z) (l : list A) : list A :=
  take (Z.to_nat (if n <? 0 then Z.of_nat (length l) + n else n)) l.

(** [read_batch]; the parameters [vt] and [conn] are not used. *)
Definition read_batch (st : t) (queue : string) (batch_size : Z)
    : list Message * t :=
  let st1 := _ensure_queue st queue in
  (slice_to batch_size (getitem st1 queue), st1).

(** [pop] *)
Definition pop (st : t) (queue : string) : outcome Message * t :=
  let st1 := _ensure_queue st queue in
  match getitem st1 queue with
  | [] => (Raise (Exn "IndexError" "empty queue" true), st1)
  | m :: l => (Return m, setitem st1 queue l)
  end.

(** The loop of [delete]: the list without the first message whose
    identifier is [id], when there is one. *)
Fixpoint remove_first (id : Z) (l : list Message) : option (list Message) :=
  match l with
  | [] => None
  | m :: l' =>
      if msg_id m =? id then Some l'
      else option_map (cons m) (remove_first id l')
  end.

(** [delete] *)
Definition delete (st : t) (queue : string) (id : Z) : bool * t :=
  let st1 := _ensure_queue st queue in
  match remove_first id (getitem st1 queue) with
  | Some l => (true, setitem st1 queue l)
  | None => (false, st1)
  end.

(** [delete_batch] *)
Fixpoint delete_batch (st : t) (queue : string) (msg_ids : list Z)
    : list Z * t :=
  match msg_ids with
  | [] => ([], st)
  | id :: ids =>
      let '(found, st1) := delete st queue id in
      let '(deleted, st2) := delete_batch st1 queue ids in
      ((if found then id :: deleted else deleted), st2)
  end.

(** [archive] and [archive_batch] *)
Definition archive (st : t) (queue : string) (id : Z) : bool * t :=
  delete st queue id.

Definition archive_batch (st : t) (queue : string) (msg_ids : list Z)
    : list Z * t :=
  delete_batch st queue msg_ids.

(** [metrics]: the queue is created and the clock read before the name
    [QueueMetrics] is looked up, line 77. *)
Definition metrics (st : t) (queue : string) : outcome QueueMetrics * t :=
  let st1 := _ensure_queue st queue in
  let now := now_at (clock st1) in
  let st2 := {| queues := queues st1; next_id := next_id st1;
                clock := S (clock st1) |} in
  let len := Z.of_nat (length (getitem st2 queue)) in
  if bool_decide ("QueueMetrics" ∈ imported)
  then (Return (mkQueueMetrics queue len 0 0 len now), st2)
  else (Raise (NameError "QueueMetrics"), st2).

(** [metrics_all]: [metrics] for each key of the dict, in order, as far as
    the first call that raises. *)
Fixpoint metrics_each (st : t) (names : list string)
    : outcome (list QueueMetrics) * t :=
  match names with
  | [] => (Return [], st)
  | n :: ns =>
      match metrics st n with
      | (Return m, st1) =>
          match metrics_each st1 ns with
          | (Return ms, st2) => (Return (m :: ms), st2)
          | (Raise e, st2) => (Raise e, st2)
          end
      | (Raise e, st1) => (Raise e, st1)
      end
  end.

Definition metrics_all (st : t) : outcome (list QueueMetrics) * t :=
  metrics_each st (list_queues st).

(** The calls a client can make, and what each leaves behind. *)
Inductive call : Type :=
| Send (queue : string) (payload : Payload)
| SendBatch (queue : string) (messages : list Payload)
| ReadBatch (queue : string) (batch_size : Z)
| Pop (queue : string)
| Delete (queue : string) (id : Z)
| DeleteBatch (queue : string) (msg_ids : list Z)
| Archive (queue : string) (id : Z)
| ArchiveBatch (queue : string) (msg_ids : list Z)
| Metrics (queue : string)
| MetricsAll
| ListQueues.

(** The identifiers a call issues, and the state after it. *)
Definition step (c : call) (st : t) : list Z * t :=
  match c with
  | Send q p => let '(id, st1) := send st q p in ([id], st1)
  | SendBatch q ms => send_batch st q ms
  | ReadBatch q n => ([], snd (read_batch st q n))
  | Pop q => ([], snd (pop st q))
  | Delete q id => ([], snd (delete st q id))
  | DeleteBatch q ids => ([], snd (delete_batch st q ids))
  | Archive q id => ([], snd (archive st q id))
  | ArchiveBatch q ids => ([], snd (archive_batch st q ids))
  | Metrics q => ([], snd (metrics st q))
  | MetricsAll => ([], snd (metrics_all st))
  | ListQueues => ([], st)
  end.

Fixpoint run (cs : list call) (st : t) : list Z * t :=
  match cs with
  | [] => ([], st)
  | c :: cs' =>
      let '(ids1, st1) := step c st in
      let '(ids2, st2) := run cs' st1 in
      (ids1 ++ ids2, st2)
  end.

(** The identifiers of the messages in one queue and in all of them. *)
Definition ids_of (l : list Message) : list Z := msg_id <$> l.

Definition all_ids (st : t) : list Z :=
  concat ((fun kl => ids_of (snd kl)) <$> queues st).

(** What every reachable state satisfies: no queue name twice, no
    identifier twice, and every identifier positive and already issued. *)
Definition well_formed (st : t) : Prop :=
  NoDup (list_queues st) /\
  NoDup (all_ids st) /\
  0 < next_id st /\
  Forall (fun id => 0 < id < next_id st) (all_ids st).

End Model.

End FakeQueue.

(** A clock, three payloads and two states of the queue, to run it on. *)

Module FakeScenario.

Definition payload : Type := gmap string value.

Definition clock (n : nat) : Z := 1700000000 + Z.of_nat n.

Definition foo_bar : payload := {["foo" := VStr "bar"]}.
Definition foo_1 : payload := {["foo" := VInt 1]}.
Definition bar_2 : payload := {["bar" := VInt 2]}.

Definition fresh : @FakeQueue.t payload := FakeQueue.new 0.

(** After [send_batch("test", [{"foo": 1}, {"bar": 2}])] and a call of
    [metrics] for a queue [jobs] that did not exist: the call raises and
    leaves the queue behind. *)
Definition two_sent : @FakeQueue.t payload :=
  snd (FakeQueue.metrics clock
         (snd (FakeQueue.send_batch clock fresh "test" [foo_1; bar_2]))
         "jobs").

End FakeScenario.

(** * Properties *)

(** ** How a run of the transactional path can go *)

Lemma in_transaction_run {Env} (db : sync_driver Env) (func : pyfunc Env)
    (owner : value) (args : list value) (kwargs : kwargs_t) (s : Env) :
  sync_run (fn_name func) owner args kwargs
    (result_of (in_transaction db func owner args kwargs s))
    (trace_of (in_transaction db func owner args kwargs s)).
Proof.
  unfold in_transaction, getattr_pool, result_of, trace_of, bind.
  destruct (pool_of owner) as [p|] eqn:Hp; cbn; [|by constructor].
  unfold with_connection, with_transaction, with_, perform.
  destruct (connection_enter db p s) as [[c|e] s1]; cbn;
    [|by constructor].
  destruct (transaction_enter db c s1) as [[[]|e] s2]; cbn;
    [|by constructor].
  unfold log_transaction_start, log_transaction_success,
    log_transaction_error, getattr_logger, try_except_Exception, invoke,
    perform, bind, emit, ret, raise.
  destruct (logger_of owner) as [lg|] eqn:Hlg; cbn; [|by constructor].
  destruct (fn_call func args (<["conn":=VConn c]> kwargs) s2)
    as [[v|e] s3]; cbn; [by constructor|].
  destruct (exn_is_Exception e) eqn:He; cbn; by constructor.
Qed.

Lemma async_transaction_run {Env} (db : async_driver Env) (func : pyfunc Env)
    (self : value) (args : list value) (kwargs : kwargs_t) (s : Env) :
  kwargs !! "conn" = None ->
  async_run (fn_name func) self args kwargs
    (result_of (async_transaction db func self args kwargs s))
    (trace_of (async_transaction db func self args kwargs s)).
Proof.
  intros Hk.
  unfold async_transaction, getattr_pool, result_of, trace_of, bind.
  rewrite Hk.
  destruct (pool_of self) as [p|] eqn:Hp; cbn; [|by constructor].
  unfold async_with_acquire, with_, perform.
  destruct (acquire db p s) as [[c|e] s1]; cbn; [|by constructor].
  unfold bind.
  destruct (txn_start db c s1) as [[[]|e] s2]; cbn; [|by constructor].
  unfold log_transaction_start, log_transaction_success,
    log_transaction_error, getattr_logger, try_except_Exception, invoke,
    perform, bind, emit, ret, raise.
  destruct (logger_of self) as [lg|] eqn:Hlg; cbn; [|by constructor].
  destruct (fn_call func (self :: args) (<["conn":=VConn c]> kwargs) s2)
    as [[v|e] s3]; cbn.
  - destruct (txn_commit db c s3) as [[[]|e] s4]; cbn; [by constructor|].
    destruct (exn_is_Exception e) eqn:He; cbn; [|by constructor].
    destruct (txn_rollback db c s4) as [[[]|e'] s5]; cbn;
      by econstructor.
  - destruct (exn_is_Exception e) eqn:He; cbn; [|by constructor].
    destruct (txn_rollback db c s3) as [[[]|e'] s4]; cbn;
      by econstructor.
Qed.

(** ** Small facts about the computations *)

Lemma bind_ret_l {Env A B} (a : A) (k : A -> M Env B) (s : Env) :
  bind (ret a) k s = k a s.
Proof. unfold bind, ret. by destruct (k a s) as [[r t] s']. Qed.

Lemma invoke_run {Env} (func : pyfunc Env) (args : list value)
    (kwargs : kwargs_t) (s : Env) :
  invoke func args kwargs s =
    (fst (fn_call func args kwargs s),
     [EInvoke args kwargs (fst (fn_call func args kwargs s))],
     snd (fn_call func args kwargs s)).
Proof. unfold invoke, perform. by destruct (fn_call func args kwargs s). Qed.

(** The receiver test of the source is the "exposes both" of the rule. *)
Lemma is_receiver_rule (a : value) (args : list value) :
  is_receiver (a :: args) = exposes_pool_and_logger a.
Proof.
  unfold is_receiver, exposes_pool_and_logger, hasattr; cbn.
  by destruct (pool_of a), (logger_of a).
Qed.

(** [kwargs.get("queue") or args[0]] follows the rule's second half. *)
Lemma queue_of_rule {Env} (args : list value) (kwargs : kwargs_t) (s : Env) :
  is_receiver args = false ->
  @queue_of Env args kwargs s =
    match owner_by_rule args kwargs with
    | Some o => (Return o, [], s)
    | None => (Raise IndexError, [], s)
    end.
Proof.
  unfold queue_of, owner_by_rule, queue_keyword_or_first, kwargs_get, args0.
  destruct args as [|a args]; intros Hr; cbn [head].
  - destruct (kwargs !! "queue") as [q|]; cbn; [|done].
    by destruct (truthy q).
  - rewrite is_receiver_rule in Hr. rewrite Hr.
    destruct (kwargs !! "queue") as [q|]; cbn; [|done].
    by destruct (truthy q).
Qed.

Lemma receiver_rule (a : value) (args : list value) (kwargs : kwargs_t) :
  is_receiver (a :: args) = true -> owner_by_rule (a :: args) kwargs = Some a.
Proof.
  rewrite is_receiver_rule. unfold owner_by_rule. cbn [head]. by intros ->.
Qed.

(** Without a [conn] keyword the wrapper runs the transactional path on the
    owner the rule names, and fails with [IndexError] when there is none. *)
Lemma transaction_no_conn {Env} (db : sync_driver Env) (func : pyfunc Env)
    (args : list value) (kwargs : kwargs_t) (s : Env) :
  kwargs !! "conn" = None ->
  transaction db func args kwargs s =
    match owner_by_rule args kwargs with
    | Some o => in_transaction db func o args kwargs s
    | None => (Raise IndexError, [], s)
    end.
Proof.
  intros Hk. unfold transaction.
  destruct (is_receiver args) eqn:Hr.
  - destruct args as [|a args]; [done|].
    rewrite (receiver_rule _ _ _ Hr). cbn [args0].
    by rewrite bind_ret_l, Hk.
  - unfold bind. rewrite (queue_of_rule _ _ _ Hr).
    destruct (owner_by_rule args kwargs) as [o|]; [|done].
    rewrite Hk.
    by destruct (in_transaction db func o args kwargs s) as [[r t] s'].
Qed.

(** With a [conn] keyword the wrapper calls straight through, once the
    owner lookup of the second branch has found something to return. *)
Lemma transaction_with_conn {Env} (db : sync_driver Env) (func : pyfunc Env)
    (args : list value) (kwargs : kwargs_t) (s : Env) (v : value) :
  kwargs !! "conn" = Some v ->
  transaction db func args kwargs s =
    match owner_by_rule args kwargs with
    | Some _ => invoke func args kwargs s
    | None => (Raise IndexError, [], s)
    end.
Proof.
  intros Hk. unfold transaction.
  destruct (is_receiver args) eqn:Hr.
  - destruct args as [|a args]; [done|].
    rewrite (receiver_rule _ _ _ Hr). cbn [args0].
    by rewrite bind_ret_l, Hk.
  - unfold bind. rewrite (queue_of_rule _ _ _ Hr).
    destruct (owner_by_rule args kwargs) as [o|]; [|done].
    rewrite Hk.
    by destruct (invoke func args kwargs s) as [[r t] s'].
Qed.

Lemma owner_by_rule_is_Some (args : list value) (kwargs : kwargs_t) :
  args <> [] \/ truthy (kwargs_get kwargs "queue") = true ->
  is_Some (owner_by_rule args kwargs).
Proof.
  unfold owner_by_rule, queue_keyword_or_first, kwargs_get.
  destruct args as [|a args]; cbn [head].
  - intros [H|H]; [done|].
    destruct (kwargs !! "queue") as [q|]; cbn in H; [|done].
    rewrite H. by eexists.
  - intros _. destruct (exposes_pool_and_logger a); [by eexists|].
    destruct (kwargs !! "queue") as [q|]; [|by eexists].
    destruct (truthy q); by eexists.
Qed.

Lemma async_transaction_with_conn {Env} (db : async_driver Env)
    (func : pyfunc Env) (self : value) (args : list value)
    (kwargs : kwargs_t) (s : Env) (v : value) :
  kwargs !! "conn" = Some v ->
  async_transaction db func self args kwargs s =
    invoke func (self :: args) kwargs s.
Proof. intros Hk. unfold async_transaction. by rewrite Hk. Qed.

(** The runs of the synchronous wrapper without a [conn] keyword. *)
Lemma transaction_run {Env} (db : sync_driver Env) (func : pyfunc Env)
    (args : list value) (kwargs : kwargs_t) (s : Env) :
  kwargs !! "conn" = None ->
  (owner_by_rule args kwargs = None /\
   result_of (transaction db func args kwargs s) = Raise IndexError /\
   trace_of (transaction db func args kwargs s) = []) \/
  (exists o, owner_by_rule args kwargs = Some o /\
     sync_run (fn_name func) o args kwargs
       (result_of (transaction db func args kwargs s))
       (trace_of (transaction db func args kwargs s))).
Proof.
  intros Hk. rewrite (transaction_no_conn _ _ _ _ _ Hk).
  destruct (owner_by_rule args kwargs) as [o|]; [right|left; done].
  exists o. split; [done|apply in_transaction_run].
Qed.

(** Case analysis on the runs of the two wrappers.  [sync_cases Hk] and
    [async_cases Hk] take the proof that no [conn] keyword was given and
    leave one goal per way the call can go, the outcome and the trace
    replaced by what they are in that case; [clear_trace_facts] then drops
    the cases at odds with what is known to be in the trace. *)
Ltac clear_trace_facts :=
  repeat match goal with
    | H : False |- _ => destruct H
    | H : _ \/ _ |- _ => destruct H as [H|H]
    | H : In _ [] |- _ => destruct H
    | H : In _ (_ :: _) |- _ => destruct H as [H|H]
    | H : _ = _ :> event |- _ =>
        first [discriminate H | injection H as H; simplify_eq]
    | H : _ = _ :> outcome _ |- _ =>
        first [discriminate H | injection H as H; simplify_eq]
    end.

Ltac sync_cases Hk :=
  match goal with
  | |- context [transaction ?db ?func ?args ?kwargs ?s] =>
      let Hrun := fresh "Hrun" in
      let o := fresh "o" in
      let Ho := fresh "Ho" in
      destruct (transaction_run db func args kwargs s Hk)
        as [(Ho & Hres & Htr)|(o & Ho & Hrun)];
      [ rewrite ?Hres, ?Htr in *
      | remember (result_of (transaction db func args kwargs s)) as r in *;
        remember (trace_of (transaction db func args kwargs s)) as tr in *;
        destruct Hrun ]
  end.

Ltac async_cases Hk :=
  match goal with
  | |- context [async_transaction ?db ?func ?self ?args ?kwargs ?s] =>
      let Hrun := fresh "Hrun" in
      pose proof (async_transaction_run db func self args kwargs s Hk)
        as Hrun;
      remember (result_of (async_transaction db func self args kwargs s))
        as r in *;
      remember (trace_of (async_transaction db func self args kwargs s))
        as tr in *;
      destruct Hrun
  end.

(** ** Acquisition failures *)

(** C7.  When acquiring the connection from the pool raises, in either
    wrapper, the call ends with that very exception and the acquisition is
    the only thing the wrapper did: no transaction was begun and no
    transaction-start, -success or -error event was logged. *)
Theorem acquisition_failure_propagates {Env} (sdb : sync_driver Env)
    (adb : async_driver Env) (func : pyfunc Env) (self : value)
    (args : list value) (kwargs : kwargs_t) (s : Env) (p : pool) (e : exn) :
  (In (EAcquire p (Raise e)) (trace_of (transaction sdb func args kwargs s)) ->
   result_of (transaction sdb func args kwargs s) = Raise e /\
   trace_of (transaction sdb func args kwargs s) = [EAcquire p (Raise e)] /\
   count is_begin (trace_of (transaction sdb func args kwargs s)) = 0%nat /\
   count is_log (trace_of (transaction sdb func args kwargs s)) = 0%nat) /\
  (In (EAcquire p (Raise e))
      (trace_of (async_transaction adb func self args kwargs s)) ->
   result_of (async_transaction adb func self args kwargs s) = Raise e /\
   trace_of (async_transaction adb func self args kwargs s)
     = [EAcquire p (Raise e)] /\
   count is_begin (trace_of (async_transaction adb func self args kwargs s))
     = 0%nat /\
   count is_log (trace_of (async_transaction adb func self args kwargs s))
     = 0%nat).
Proof.
  split; intros Hin.
  - destruct (kwargs !! "conn") as [v|] eqn:Hk.
    + rewrite (transaction_with_conn _ _ _ _ _ _ Hk) in *.
      destruct (owner_by_rule args kwargs); [|destruct Hin].
      rewrite invoke_run in Hin. cbn in Hin. clear_trace_facts.
    + sync_cases Hk; clear_trace_facts. done.
  - destruct (kwargs !! "conn") as [v|] eqn:Hk.
    + rewrite (async_transaction_with_conn _ _ _ _ _ _ _ Hk) in *.
      rewrite invoke_run in Hin. cbn in Hin. clear_trace_facts.
    + async_cases Hk; clear_trace_facts. done.
Qed.

Lemma acquisition_failure_propagates_witness :
  result_of (transaction Scenario.sync_pool Scenario.send_ok
               [Scenario.queue_client] ∅ [])
    = Raise Scenario.PoolTimeout /\
  result_of (async_transaction
               (Scenario.async_pool (Return tt) (Return tt)) Scenario.send_ok
               Scenario.queue_client [] ∅ [])
    = Raise Scenario.PoolTimeout.
Proof.
  split.
  - destruct (acquisition_failure_propagates Scenario.sync_pool
                (Scenario.async_pool (Return tt) (Return tt))
                Scenario.send_ok Scenario.queue_client
                [Scenario.queue_client] ∅ []
                Scenario.the_pool Scenario.PoolTimeout) as [Hs _].
    apply Hs. vm_compute. left. reflexivity.
  - destruct (acquisition_failure_propagates Scenario.sync_pool
                (Scenario.async_pool (Return tt) (Return tt))
                Scenario.send_ok Scenario.queue_client [] ∅ []
                Scenario.the_pool Scenario.PoolTimeout) as [_ Ha].
    apply Ha. vm_compute. left. reflexivity.
Defined.

(** ** The wrapped callable raises *)

(** C1 (amended).  No [conn] keyword was given and the wrapped callable
    raises [e], an instance of [Exception].  In the synchronous wrapper a
    transaction-error event is logged with the operation name and the
    connection identifier of the transaction-start event before it, the
    scoped transaction rolls back, and the call ends with [e] itself.  In
    the asynchronous wrapper the explicit rollback is called, once, on the
    connection the transaction was begun on, and the same holds once that
    call has returned: rollback, then the error event, then [e] re-raised. *)
Theorem callable_exception_logged_and_reraised {Env} (func : pyfunc Env)
    (kwargs : kwargs_t) (e : exn) :
  kwargs !! "conn" = None ->
  exn_is_Exception e = true ->
  (forall (sdb : sync_driver Env) (args : list value) (s : Env)
          (a : list value) (k : kwargs_t),
     In (EInvoke a k (Raise e))
        (trace_of (transaction sdb func args kwargs s)) ->
     result_of (transaction sdb func args kwargs s) = Raise e /\
     exists p lg c,
       trace_of (transaction sdb func args kwargs s) =
         [EAcquire p (Return c); EBegin c (Return tt);
          ELog lg (TransactionStart (fn_name func) (py_id c));
          EInvoke args (<["conn" := VConn c]> kwargs) (Raise e);
          ELog lg (TransactionError (fn_name func) e (py_id c));
          ERollback c (Return tt); ERelease p c]) /\
  (forall (adb : async_driver Env) (self : value) (args : list value)
          (s : Env) (a : list value) (k : kwargs_t),
     In (EInvoke a k (Raise e))
        (trace_of (async_transaction adb func self args kwargs s)) ->
     (exists c r,
        In (EBegin c (Return tt))
           (trace_of (async_transaction adb func self args kwargs s)) /\
        In (ERollback c r)
           (trace_of (async_transaction adb func self args kwargs s)) /\
        count is_rollback
          (trace_of (async_transaction adb func self args kwargs s))
          = 1%nat) /\
     (forall c,
        In (ERollback c (Return tt))
           (trace_of (async_transaction adb func self args kwargs s)) ->
        result_of (async_transaction adb func self args kwargs s) = Raise e /\
        exists p lg,
          trace_of (async_transaction adb func self args kwargs s) =
            [EAcquire p (Return c); EBegin c (Return tt);
             ELog lg (TransactionStart (fn_name func) (py_id c));
             EInvoke (self :: args) (<["conn" := VConn c]> kwargs) (Raise e);
             ERollback c (Return tt);
             ELog lg (TransactionError (fn_name func) e (py_id c));
             ERelease p c])).
Proof.
  intros Hk He. split.
  - intros sdb args s a k Hin.
    sync_cases Hk; clear_trace_facts; try congruence.
    split; [done|]. by exists p, lg, c.
  - intros adb self args s a k Hin.
    async_cases Hk; clear_trace_facts; try congruence.
    + split.
      * exists c, (Return tt). cbn. tauto.
      * intros c' Hrb. clear_trace_facts. split; [done|]. by exists p, lg.
    + split.
      * exists c, (Raise e'). cbn. tauto.
      * intros c' Hrb. clear_trace_facts.
Qed.

Lemma callable_exception_logged_and_reraised_witness :
  result_of (transaction Scenario.sync_pool
               (Scenario.send_raising Scenario.ValueError)
               [Scenario.queue_client] ∅ [Scenario.conn_a])
    = Raise Scenario.ValueError /\
  result_of (async_transaction
               (Scenario.async_pool (Return tt) (Return tt))
               (Scenario.send_raising Scenario.ValueError)
               Scenario.queue_client [] ∅ [Scenario.conn_a])
    = Raise Scenario.ValueError.
Proof.
  destruct (callable_exception_logged_and_reraised
              (Scenario.send_raising Scenario.ValueError) ∅
              Scenario.ValueError) as [Hs Ha];
    [vm_compute; reflexivity | reflexivity |].
  split.
  - eapply (Hs Scenario.sync_pool [Scenario.queue_client]
              [Scenario.conn_a] [Scenario.queue_client]
              (<["conn" := VConn Scenario.conn_a]> ∅)).
    vm_compute. do 3 right. left. reflexivity.
  - destruct (Ha (Scenario.async_pool (Return tt) (Return tt))
                Scenario.queue_client [] [Scenario.conn_a]
                [Scenario.queue_client]
                (<["conn" := VConn Scenario.conn_a]> ∅)) as [_ Hlog].
    + vm_compute. do 3 right. left. reflexivity.
    + apply (Hlog Scenario.conn_a).
      vm_compute. do 4 right. left. reflexivity.
Defined.

(** C1 as stated fails twice.  A [KeyboardInterrupt] out of the callable
    passes [except Exception]: the synchronous wrapper logs no error event.
    And when the asynchronous rollback itself raises, no error event is
    logged and the caller receives the rollback's exception, not the
    callable's. *)
Lemma callable_exception_counterexample :
  transaction Scenario.sync_pool
    (Scenario.send_raising Scenario.KeyboardInterrupt)
    [Scenario.queue_client] ∅ [Scenario.conn_a]
  = (Raise Scenario.KeyboardInterrupt,
     [EAcquire Scenario.the_pool (Return Scenario.conn_a);
      EBegin Scenario.conn_a (Return tt);
      ELog Scenario.the_logger (TransactionStart "send" 140001);
      EInvoke [Scenario.queue_client]
        (<["conn" := VConn Scenario.conn_a]> ∅)
        (Raise Scenario.KeyboardInterrupt);
      ERollback Scenario.conn_a (Return tt);
      ERelease Scenario.the_pool Scenario.conn_a],
     [Scenario.conn_a]) /\
  async_transaction
    (Scenario.async_pool (Return tt) (Raise Scenario.InterfaceError))
    (Scenario.send_raising Scenario.ValueError)
    Scenario.queue_client [] ∅ [Scenario.conn_a]
  = (Raise Scenario.InterfaceError,
     [EAcquire Scenario.the_pool (Return Scenario.conn_a);
      EBegin Scenario.conn_a (Return tt);
      ELog Scenario.the_logger (TransactionStart "send" 140001);
      EInvoke [Scenario.queue_client]
        (<["conn" := VConn Scenario.conn_a]> ∅)
        (Raise Scenario.ValueError);
      ERollback Scenario.conn_a (Raise Scenario.InterfaceError);
      ERelease Scenario.the_pool Scenario.conn_a],
     [Scenario.conn_a]).
Proof. split; vm_compute; reflexivity. Qed.

(** ** The wrapped callable returns *)

(** C8 (amended).  No [conn] keyword was given and the wrapped callable
    returns [v].  The synchronous wrapper logs the transaction-success event
    after the callable has returned and returns [v] itself.  The
    asynchronous wrapper does the same when the explicit commit, which comes
    between the callable's return and the success event, has returned. *)
Theorem normal_return_logs_success {Env} (func : pyfunc Env)
    (kwargs : kwargs_t) (v : value) :
  kwargs !! "conn" = None ->
  (forall (sdb : sync_driver Env) (args : list value) (s : Env)
          (a : list value) (k : kwargs_t),
     In (EInvoke a k (Return v))
        (trace_of (transaction sdb func args kwargs s)) ->
     result_of (transaction sdb func args kwargs s) = Return v /\
     exists p lg c,
       trace_of (transaction sdb func args kwargs s) =
         [EAcquire p (Return c); EBegin c (Return tt);
          ELog lg (TransactionStart (fn_name func) (py_id c));
          EInvoke args (<["conn" := VConn c]> kwargs) (Return v);
          ELog lg (TransactionSuccess (fn_name func) (py_id c));
          ECommit c (Return tt); ERelease p c]) /\
  (forall (adb : async_driver Env) (self : value) (args : list value)
          (s : Env) (a : list value) (k : kwargs_t) (c : connection),
     In (EInvoke a k (Return v))
        (trace_of (async_transaction adb func self args kwargs s)) ->
     In (ECommit c (Return tt))
        (trace_of (async_transaction adb func self args kwargs s)) ->
     result_of (async_transaction adb func self args kwargs s) = Return v /\
     exists p lg,
       trace_of (async_transaction adb func self args kwargs s) =
         [EAcquire p (Return c); EBegin c (Return tt);
          ELog lg (TransactionStart (fn_name func) (py_id c));
          EInvoke (self :: args) (<["conn" := VConn c]> kwargs) (Return v);
          ECommit c (Return tt);
          ELog lg (TransactionSuccess (fn_name func) (py_id c));
          ERelease p c]).
Proof.
  intros Hk. split.
  - intros sdb args s a k Hin.
    sync_cases Hk; clear_trace_facts.
    split; [done|]. by exists p, lg, c.
  - intros adb self args s a k c Hin Hc.
    async_cases Hk; clear_trace_facts.
    split; [done|]. by exists p, lg.
Qed.

Lemma normal_return_logs_success_witness :
  result_of (transaction Scenario.sync_pool Scenario.send_ok
               [Scenario.queue_client] ∅ [Scenario.conn_a])
    = Return (VInt 1) /\
  result_of (async_transaction
               (Scenario.async_pool (Return tt) (Return tt))
               Scenario.send_ok Scenario.queue_client [] ∅ [Scenario.conn_a])
    = Return (VInt 1).
Proof.
  destruct (normal_return_logs_success Scenario.send_ok ∅ (VInt 1))
    as [Hs Ha]; [vm_compute; reflexivity|].
  split.
  - eapply (Hs Scenario.sync_pool [Scenario.queue_client]
              [Scenario.conn_a] [Scenario.queue_client]
              (<["conn" := VConn Scenario.conn_a]> ∅)).
    vm_compute. do 3 right. left. reflexivity.
  - eapply (Ha (Scenario.async_pool (Return tt) (Return tt))
              Scenario.queue_client [] [Scenario.conn_a]
              [Scenario.queue_client]
              (<["conn" := VConn Scenario.conn_a]> ∅) Scenario.conn_a).
    + vm_compute. do 3 right. left. reflexivity.
    + vm_compute. do 4 right. left. reflexivity.
Defined.

(** C8 as stated fails in the asynchronous wrapper: the callable returns
    1, the commit raises, no success event is logged and the caller gets
    the commit's exception instead of 1. *)
Lemma normal_return_counterexample :
  async_transaction
    (Scenario.async_pool (Raise Scenario.OperationalError) (Return tt))
    Scenario.send_ok Scenario.queue_client [] ∅ [Scenario.conn_a]
  = (Raise Scenario.OperationalError,
     [EAcquire Scenario.the_pool (Return Scenario.conn_a);
      EBegin Scenario.conn_a (Return tt);
      ELog Scenario.the_logger (TransactionStart "send" 140001);
      EInvoke [Scenario.queue_client]
        (<["conn" := VConn Scenario.conn_a]> ∅) (Return (VInt 1));
      ECommit Scenario.conn_a (Raise Scenario.OperationalError);
      ERollback Scenario.conn_a (Return tt);
      ELog Scenario.the_logger
        (TransactionError "send" Scenario.OperationalError 140001);
      ERelease Scenario.the_pool Scenario.conn_a],
     [Scenario.conn_a]).
Proof. vm_compute; reflexivity. Qed.

(** ** The commit raises *)

(** C10 (amended).  In the asynchronous wrapper, when the explicit commit
    raises [e]: the callable had returned normally; no transaction-success
    event is logged; if [e] is an instance of [Exception] the wrapper calls
    rollback; and if that rollback call returns, the wrapper then logs a
    transaction-error event carrying [e] and re-raises [e]. *)
Theorem commit_failure_rolled_back_and_logged {Env} (adb : async_driver Env)
    (func : pyfunc Env) (self : value) (args : list value)
    (kwargs : kwargs_t) (s : Env) (c : connection) (e : exn) :
  In (ECommit c (Raise e))
     (trace_of (async_transaction adb func self args kwargs s)) ->
  (exists v, In (EInvoke (self :: args) (<["conn" := VConn c]> kwargs)
                   (Return v))
                (trace_of (async_transaction adb func self args kwargs s))) /\
  count is_success_log
    (trace_of (async_transaction adb func self args kwargs s)) = 0%nat /\
  (exn_is_Exception e = true ->
   exists r, In (ERollback c r)
               (trace_of (async_transaction adb func self args kwargs s))) /\
  (exn_is_Exception e = true ->
   In (ERollback c (Return tt))
      (trace_of (async_transaction adb func self args kwargs s)) ->
   result_of (async_transaction adb func self args kwargs s) = Raise e /\
   exists p lg v,
     trace_of (async_transaction adb func self args kwargs s) =
       [EAcquire p (Return c); EBegin c (Return tt);
        ELog lg (TransactionStart (fn_name func) (py_id c));
        EInvoke (self :: args) (<["conn" := VConn c]> kwargs) (Return v);
        ECommit c (Raise e);
        ERollback c (Return tt);
        ELog lg (TransactionError (fn_name func) e (py_id c));
        ERelease p c]).
Proof.
  intros Hin.
  destruct (kwargs !! "conn") as [v0|] eqn:Hk.
  - rewrite (async_transaction_with_conn _ _ _ _ _ _ _ Hk) in *.
    rewrite invoke_run in Hin. cbn in Hin. clear_trace_facts.
  - async_cases Hk; clear_trace_facts.
    + split; [exists v; cbn; tauto|].
      split; [done|].
      split; [intros _; exists (Return tt); cbn; tauto|].
      intros _ _. split; [done|]. by exists p, lg, v.
    + split; [exists v; cbn; tauto|].
      split; [done|].
      split; [intros _; exists (Raise e'); cbn; tauto|].
      intros _ Hrb. clear_trace_facts.
    + split; [exists v; cbn; tauto|].
      split; [done|].
      split; intros; congruence.
Qed.

Lemma commit_failure_rolled_back_and_logged_witness :
  result_of (async_transaction
               (Scenario.async_pool (Raise Scenario.OperationalError)
                  (Return tt))
               Scenario.send_ok Scenario.queue_client [] ∅ [Scenario.conn_a])
    = Raise Scenario.OperationalError.
Proof.
  destruct (commit_failure_rolled_back_and_logged
              (Scenario.async_pool (Raise Scenario.OperationalError)
                 (Return tt))
              Scenario.send_ok Scenario.queue_client [] ∅ [Scenario.conn_a]
              Scenario.conn_a Scenario.OperationalError)
    as (_ & _ & _ & H).
  - vm_compute. do 4 right. left. reflexivity.
  - apply H.
    + reflexivity.
    + vm_compute. do 5 right. left. reflexivity.
Defined.

(** C10 as stated fails twice.  When the rollback that follows the failed
    commit raises as well, no error event is logged and the caller gets the
    rollback's exception.  When the commit is interrupted by a cancellation,
    which is no instance of [Exception], neither rollback nor error event
    happens. *)
Lemma commit_failure_counterexample :
  async_transaction
    (Scenario.async_pool (Raise Scenario.OperationalError)
       (Raise Scenario.InterfaceError))
    Scenario.send_ok Scenario.queue_client [] ∅ [Scenario.conn_a]
  = (Raise Scenario.InterfaceError,
     [EAcquire Scenario.the_pool (Return Scenario.conn_a);
      EBegin Scenario.conn_a (Return tt);
      ELog Scenario.the_logger (TransactionStart "send" 140001);
      EInvoke [Scenario.queue_client]
        (<["conn" := VConn Scenario.conn_a]> ∅) (Return (VInt 1));
      ECommit Scenario.conn_a (Raise Scenario.OperationalError);
      ERollback Scenario.conn_a (Raise Scenario.InterfaceError);
      ERelease Scenario.the_pool Scenario.conn_a],
     [Scenario.conn_a]) /\
  async_transaction
    (Scenario.async_pool (Raise Scenario.CancelledError) (Return tt))
    Scenario.send_ok Scenario.queue_client [] ∅ [Scenario.conn_a]
  = (Raise Scenario.CancelledError,
     [EAcquire Scenario.the_pool (Return Scenario.conn_a);
      EBegin Scenario.conn_a (Return tt);
      ELog Scenario.the_logger (TransactionStart "send" 140001);
      EInvoke [Scenario.queue_client]
        (<["conn" := VConn Scenario.conn_a]> ∅) (Return (VInt 1));
      ECommit Scenario.conn_a (Raise Scenario.CancelledError);
      ERelease Scenario.the_pool Scenario.conn_a],
     [Scenario.conn_a]).
Proof. split; vm_compute; reflexivity. Qed.

(** ** Cancellation *)

(** The synchronous wrapper: whatever the callable raises, an instance of
    [Exception] or not, the scoped transaction rolls back and the exception
    reaches the caller. *)
Lemma sync_any_exception_rolls_back {Env} (sdb : sync_driver Env)
    (func : pyfunc Env) (args : list value) (kwargs : kwargs_t) (s : Env)
    (a : list value) (k : kwargs_t) (e : exn) :
  kwargs !! "conn" = None ->
  In (EInvoke a k (Raise e)) (trace_of (transaction sdb func args kwargs s)) ->
  result_of (transaction sdb func args kwargs s) = Raise e /\
  exists c, In (EBegin c (Return tt))
              (trace_of (transaction sdb func args kwargs s)) /\
            In (ERollback c (Return tt))
              (trace_of (transaction sdb func args kwargs s)).
Proof.
  intros Hk Hin.
  sync_cases Hk; clear_trace_facts; (split; [done|]); exists c; cbn; tauto.
Qed.

(** The asynchronous wrapper: an exception that is no instance of
    [Exception], as the cancellation of the task is, reaches the caller
    with the transaction begun and neither committed nor rolled back, and
    without an error event. *)
Lemma async_base_exception_skips_rollback {Env} (adb : async_driver Env)
    (func : pyfunc Env) (self : value) (args : list value)
    (kwargs : kwargs_t) (s : Env) (a : list value) (k : kwargs_t) (e : exn) :
  kwargs !! "conn" = None ->
  exn_is_Exception e = false ->
  In (EInvoke a k (Raise e))
     (trace_of (async_transaction adb func self args kwargs s)) ->
  result_of (async_transaction adb func self args kwargs s) = Raise e /\
  count is_begun (trace_of (async_transaction adb func self args kwargs s))
    = 1%nat /\
  count is_rollback (trace_of (async_transaction adb func self args kwargs s))
    = 0%nat /\
  count is_error_log
    (trace_of (async_transaction adb func self args kwargs s)) = 0%nat.
Proof.
  intros Hk He Hin.
  async_cases Hk; clear_trace_facts; try congruence. done.
Qed.

(** C4.  The asynchronous wrapper at a cancelled call: the callable raises
    [CancelledError] while the transaction is open; the exception reaches
    the caller, but the transaction is not rolled back and the connection
    goes back to the pool as it is. *)
Theorem async_cancellation_not_rolled_back :
  async_transaction
    (Scenario.async_pool (Return tt) (Return tt))
    (Scenario.send_raising Scenario.CancelledError)
    Scenario.queue_client [] ∅ [Scenario.conn_a]
  = (Raise Scenario.CancelledError,
     [EAcquire Scenario.the_pool (Return Scenario.conn_a);
      EBegin Scenario.conn_a (Return tt);
      ELog Scenario.the_logger (TransactionStart "send" 140001);
      EInvoke [Scenario.queue_client]
        (<["conn" := VConn Scenario.conn_a]> ∅)
        (Raise Scenario.CancelledError);
      ERelease Scenario.the_pool Scenario.conn_a],
     [Scenario.conn_a]) /\
  count is_rollback
    (trace_of (async_transaction
                 (Scenario.async_pool (Return tt) (Return tt))
                 (Scenario.send_raising Scenario.CancelledError)
                 Scenario.queue_client [] ∅ [Scenario.conn_a])) = 0%nat.
Proof. split; vm_compute; reflexivity. Qed.

(** ** A connection is supplied by the caller *)

Lemma passthrough_sync {Env} (sdb : sync_driver Env) (func : pyfunc Env)
    (args : list value) (kwargs : kwargs_t) (s : Env) (v : value) :
  kwargs !! "conn" = Some v ->
  args <> [] \/ truthy (kwargs_get kwargs "queue") = true ->
  transaction sdb func args kwargs s =
    (fst (fn_call func args kwargs s),
     [EInvoke args kwargs (fst (fn_call func args kwargs s))],
     snd (fn_call func args kwargs s)).
Proof.
  intros Hk Ho. rewrite (transaction_with_conn _ _ _ _ _ _ Hk).
  destruct (owner_by_rule_is_Some _ _ Ho) as [o ->]. apply invoke_run.
Qed.

Lemma passthrough_async {Env} (adb : async_driver Env) (func : pyfunc Env)
    (self : value) (args : list value) (kwargs : kwargs_t) (s : Env)
    (v : value) :
  kwargs !! "conn" = Some v ->
  async_transaction adb func self args kwargs s =
    (fst (fn_call func (self :: args) kwargs s),
     [EInvoke (self :: args) kwargs
        (fst (fn_call func (self :: args) kwargs s))],
     snd (fn_call func (self :: args) kwargs s)).
Proof.
  intros Hk. rewrite (async_transaction_with_conn _ _ _ _ _ _ _ Hk).
  apply invoke_run.
Qed.

(** C2 (amended).  The caller supplied a value under the [conn] keyword.
    The asynchronous wrapper, and the synchronous wrapper whenever the call
    has a first positional argument or a true [queue] keyword, acquire
    nothing from the pool, begin no transaction, and do one thing only:
    they call the wrapped callable with the arguments as they came, the
    supplied [conn] among them. *)
Theorem presupplied_conn_calls_straight_through {Env} (func : pyfunc Env)
    (kwargs : kwargs_t) (v : value) :
  kwargs !! "conn" = Some v ->
  (forall (sdb : sync_driver Env) (args : list value) (s : Env),
     args <> [] \/ truthy (kwargs_get kwargs "queue") = true ->
     trace_of (transaction sdb func args kwargs s) =
       [EInvoke args kwargs (fst (fn_call func args kwargs s))] /\
     count is_acquire (trace_of (transaction sdb func args kwargs s))
       = 0%nat /\
     count is_begin (trace_of (transaction sdb func args kwargs s))
       = 0%nat) /\
  (forall (adb : async_driver Env) (self : value) (args : list value)
          (s : Env),
     trace_of (async_transaction adb func self args kwargs s) =
       [EInvoke (self :: args) kwargs
          (fst (fn_call func (self :: args) kwargs s))] /\
     count is_acquire
       (trace_of (async_transaction adb func self args kwargs s)) = 0%nat /\
     count is_begin
       (trace_of (async_transaction adb func self args kwargs s)) = 0%nat).
Proof.
  intros Hk. split.
  - intros sdb args s Ho. by rewrite (passthrough_sync _ _ _ _ _ _ Hk Ho).
  - intros adb self args s. by rewrite (passthrough_async _ _ _ _ _ _ _ Hk).
Qed.

Lemma presupplied_conn_calls_straight_through_witness :
  trace_of (transaction Scenario.sync_pool Scenario.send_ok
              [Scenario.queue_client] {["conn" := VConn Scenario.conn_b]}
              [Scenario.conn_a])
    = [EInvoke [Scenario.queue_client] {["conn" := VConn Scenario.conn_b]}
         (Return (VInt 1))] /\
  trace_of (async_transaction
              (Scenario.async_pool (Return tt) (Return tt)) Scenario.send_ok
              Scenario.queue_client [] {["conn" := VConn Scenario.conn_b]}
              [Scenario.conn_a])
    = [EInvoke [Scenario.queue_client] {["conn" := VConn Scenario.conn_b]}
         (Return (VInt 1))].
Proof.
  destruct (presupplied_conn_calls_straight_through Scenario.send_ok
              {["conn" := VConn Scenario.conn_b]} (VConn Scenario.conn_b))
    as [Hs Ha]; [vm_compute; reflexivity|].
  split.
  - apply (Hs Scenario.sync_pool [Scenario.queue_client] [Scenario.conn_a]).
    left. discriminate.
  - apply (Ha (Scenario.async_pool (Return tt) (Return tt))
             Scenario.queue_client [] [Scenario.conn_a]).
Defined.

(** C2 as stated fails in the synchronous wrapper for a call that has a
    [conn] keyword, no positional argument and no [queue] keyword: the
    lookup of the owner, made before the test for [conn], raises
    [IndexError] and the callable is never called. *)
Lemma presupplied_conn_counterexample :
  transaction Scenario.sync_pool Scenario.send_ok
    [] {["conn" := VConn Scenario.conn_b]} [Scenario.conn_a]
  = (Raise IndexError, [], [Scenario.conn_a]).
Proof. vm_compute; reflexivity. Qed.

(** C9 (amended).  The caller supplied a value under the [conn] keyword.
    The asynchronous wrapper, and the synchronous wrapper whenever the call
    has a first positional argument or a true [queue] keyword, log
    nothing and touch neither pool nor transaction: the call of the wrapped
    callable is the only action, and the outcome and the state of the
    world after the call are those the callable produced. *)
Theorem presupplied_conn_only_callable_effect {Env} (func : pyfunc Env)
    (kwargs : kwargs_t) (v : value) :
  kwargs !! "conn" = Some v ->
  (forall (sdb : sync_driver Env) (args : list value) (s : Env),
     args <> [] \/ truthy (kwargs_get kwargs "queue") = true ->
     count is_log (trace_of (transaction sdb func args kwargs s)) = 0%nat /\
     (forall ev, In ev (trace_of (transaction sdb func args kwargs s)) ->
                 is_invoke ev = true) /\
     result_of (transaction sdb func args kwargs s)
       = fst (fn_call func args kwargs s) /\
     state_of (transaction sdb func args kwargs s)
       = snd (fn_call func args kwargs s)) /\
  (forall (adb : async_driver Env) (self : value) (args : list value)
          (s : Env),
     count is_log (trace_of (async_transaction adb func self args kwargs s))
       = 0%nat /\
     (forall ev,
        In ev (trace_of (async_transaction adb func self args kwargs s)) ->
        is_invoke ev = true) /\
     result_of (async_transaction adb func self args kwargs s)
       = fst (fn_call func (self :: args) kwargs s) /\
     state_of (async_transaction adb func self args kwargs s)
       = snd (fn_call func (self :: args) kwargs s)).
Proof.
  intros Hk. split.
  - intros sdb args s Ho. rewrite (passthrough_sync _ _ _ _ _ _ Hk Ho).
    repeat split. intros ev [<-|[]]. done.
  - intros adb self args s. rewrite (passthrough_async _ _ _ _ _ _ _ Hk).
    repeat split. intros ev [<-|[]]. done.
Qed.

Lemma presupplied_conn_only_callable_effect_witness :
  state_of (transaction Scenario.sync_pool Scenario.send_ok
              [VStr "tasks"]
              {["conn" := VConn Scenario.conn_b]} [Scenario.conn_a])
    = [Scenario.conn_a] /\
  state_of (async_transaction
              (Scenario.async_pool (Return tt) (Return tt)) Scenario.send_ok
              Scenario.queue_client [] {["conn" := VConn Scenario.conn_b]}
              [Scenario.conn_a])
    = [Scenario.conn_a].
Proof.
  destruct (presupplied_conn_only_callable_effect Scenario.send_ok
              {["conn" := VConn Scenario.conn_b]} (VConn Scenario.conn_b))
    as [Hs Ha]; [vm_compute; reflexivity|].
  split.
  - apply (Hs Scenario.sync_pool [VStr "tasks"] [Scenario.conn_a]).
    left. discriminate.
  - apply (Ha (Scenario.async_pool (Return tt) (Return tt))
             Scenario.queue_client [] [Scenario.conn_a]).
Defined.

(** C9 as stated fails in the synchronous wrapper for a call with a [conn]
    keyword, no positional argument and [queue=None]: the callable on
    its own would return 1, the wrapper raises [IndexError] instead. *)
Lemma presupplied_conn_effect_counterexample :
  result_of (transaction Scenario.sync_pool Scenario.send_ok []
               (<["queue" := VNone]> {["conn" := VConn Scenario.conn_b]})
               [Scenario.conn_a])
    = Raise IndexError /\
  fst (fn_call Scenario.send_ok []
         (<["queue" := VNone]> {["conn" := VConn Scenario.conn_b]})
         [Scenario.conn_a])
    = Return (VInt 1).
Proof. split; vm_compute; reflexivity. Qed.

(** ** One connection, one transaction, one injection *)




(** ** Whose pool and whose logger *)

(** Every pool and every logger in a run of the transactional path belong
    to the owner it was started with. *)
Lemma sync_run_uses_owner (name : string) (o : value) (args : list value)
    (kwargs : kwargs_t) (r : outcome value) (tr : list event) :
  sync_run name o args kwargs r tr ->
  (forall p x, In (EAcquire p x) tr -> pool_of o = Some p) /\
  (forall p c, In (ERelease p c) tr -> pool_of o = Some p) /\
  (forall lg ev, In (ELog lg ev) tr -> logger_of o = Some lg).
Proof.
  intros Hrun. destruct Hrun; repeat split; intros; clear_trace_facts; done.
Qed.

(** C5.  The synchronous wrapper takes pool and logger from the owner the
    resolution rule names: the first positional argument when it exposes
    both a pool and a logger; otherwise the value of the [queue] keyword,
    or the first positional argument when that keyword is absent or false.
    A call without a [conn] keyword is the transactional path run on that
    owner, and every pool acquired from or released to and every logger
    logged to in any call is that owner's. *)
Theorem pool_and_logger_come_from_the_resolved_owner {Env}
    (sdb : sync_driver Env) (func : pyfunc Env) (args : list value)
    (kwargs : kwargs_t) (s : Env) :
  (kwargs !! "conn" = None ->
   transaction sdb func args kwargs s =
     match owner_by_rule args kwargs with
     | Some o => in_transaction sdb func o args kwargs s
     | None => (Raise IndexError, [], s)
     end) /\
  (forall p x,
     In (EAcquire p x) (trace_of (transaction sdb func args kwargs s)) ->
     exists o, owner_by_rule args kwargs = Some o /\ pool_of o = Some p) /\
  (forall p c,
     In (ERelease p c) (trace_of (transaction sdb func args kwargs s)) ->
     exists o, owner_by_rule args kwargs = Some o /\ pool_of o = Some p) /\
  (forall lg ev,
     In (ELog lg ev) (trace_of (transaction sdb func args kwargs s)) ->
     exists o, owner_by_rule args kwargs = Some o /\ logger_of o = Some lg).
Proof.
  split; [apply transaction_no_conn|].
  destruct (kwargs !! "conn") as [v|] eqn:Hk.
  - rewrite (transaction_with_conn _ _ _ _ _ _ Hk).
    destruct (owner_by_rule args kwargs) as [o|];
      [rewrite invoke_run|]; cbn;
      repeat split; intros; clear_trace_facts.
  - rewrite (transaction_no_conn _ _ _ _ _ Hk).
    destruct (owner_by_rule args kwargs) as [o|];
      [|cbn; repeat split; intros; clear_trace_facts].
    destruct (sync_run_uses_owner _ _ _ _ _ _
                (in_transaction_run sdb func o args kwargs s))
      as (Hp & Hr & Hl).
    repeat split; intros; exists o; split; eauto.
Qed.

Lemma pool_and_logger_come_from_the_resolved_owner_witness :
  owner_by_rule [VStr "tasks"] {["queue" := Scenario.queue_client]}
    = Some Scenario.queue_client /\
  exists o,
    owner_by_rule [VStr "tasks"] {["queue" := Scenario.queue_client]}
      = Some o /\
    logger_of o = Some Scenario.the_logger.
Proof.
  split; [vm_compute; reflexivity|].
  destruct (pool_and_logger_come_from_the_resolved_owner
              Scenario.sync_pool Scenario.send_ok [VStr "tasks"]
              {["queue" := Scenario.queue_client]} [Scenario.conn_a])
    as (_ & _ & _ & Hl).
  apply (Hl Scenario.the_logger (TransactionStart "send" 140001)).
  vm_compute. do 2 right. left. reflexivity.
Defined.

(** ** Two calls in a row *)

(** A call of the synchronous wrapper that begins a transaction begins one
    only, ends it by commit or rollback before returning, and logs under the
    identifier of the connection it was begun on. *)
Lemma begun_call_shape {Env} (sdb : sync_driver Env) (func : pyfunc Env)
    (args : list value) (kwargs : kwargs_t) (s : Env) (c : connection) :
  kwargs !! "conn" = None ->
  In (EBegin c (Return tt)) (trace_of (transaction sdb func args kwargs s)) ->
  count is_begin (trace_of (transaction sdb func args kwargs s)) = 1%nat /\
  (In (ECommit c (Return tt)) (trace_of (transaction sdb func args kwargs s))
   \/ In (ERollback c (Return tt))
         (trace_of (transaction sdb func args kwargs s))) /\
  Forall (fun i => i = py_id c)
    (logged_conn_ids (trace_of (transaction sdb func args kwargs s))).
Proof.
  intros Hk Hin.
  sync_cases Hk; clear_trace_facts;
    (split; [done|]); (split; [cbn; tauto|]); cbn; repeat constructor.
Qed.


(** C6 (amended).  Two calls of the synchronous wrapper, one after the
    other, neither with a [conn] keyword, each getting as far as beginning
    its transaction.  Each call begins exactly one transaction and ends it,
    by commit or by rollback, before it returns, and the log events of each
    call carry the identifier of the connection that call acquired.  When
    both calls were handed the same connection, every identifier the second
    call logs is the one the first call logged; two different identifiers
    are logged only for two different connections. *)
Theorem two_calls_two_transactions {Env} (sdb : sync_driver Env)
    (f1 f2 : pyfunc Env) (args1 args2 : list value) (kw1 kw2 : kwargs_t)
    (s : Env) (c1 c2 : connection) :
  kw1 !! "conn" = None ->
  kw2 !! "conn" = None ->
  In (EBegin c1 (Return tt)) (trace_of (transaction sdb f1 args1 kw1 s)) ->
  In (EBegin c2 (Return tt))
     (trace_of (after (transaction sdb f1 args1 kw1)
                      (transaction sdb f2 args2 kw2) s)) ->
  (count is_begin (trace_of (transaction sdb f1 args1 kw1 s)) = 1%nat /\
   (In (ECommit c1 (Return tt)) (trace_of (transaction sdb f1 args1 kw1 s))
    \/ In (ERollback c1 (Return tt))
          (trace_of (transaction sdb f1 args1 kw1 s))) /\
   Forall (fun i => i = py_id c1)
     (logged_conn_ids (trace_of (transaction sdb f1 args1 kw1 s)))) /\
  (count is_begin
     (trace_of (after (transaction sdb f1 args1 kw1)
                      (transaction sdb f2 args2 kw2) s)) = 1%nat /\
   (In (ECommit c2 (Return tt))
       (trace_of (after (transaction sdb f1 args1 kw1)
                        (transaction sdb f2 args2 kw2) s))
    \/ In (ERollback c2 (Return tt))
          (trace_of (after (transaction sdb f1 args1 kw1)
                           (transaction sdb f2 args2 kw2) s))) /\
   Forall (fun i => i = py_id c2)
     (logged_conn_ids
        (trace_of (after (transaction sdb f1 args1 kw1)
                         (transaction sdb f2 args2 kw2) s)))) /\
  (forall i1 i2,
     In i1 (logged_conn_ids (trace_of (transaction sdb f1 args1 kw1 s))) ->
     In i2 (logged_conn_ids
              (trace_of (after (transaction sdb f1 args1 kw1)
                               (transaction sdb f2 args2 kw2) s))) ->
     (c1 = c2 -> i1 = i2) /\ (i1 <> i2 -> c1 <> c2)).
Proof.
  intros Hk1 Hk2 Hb1 Hb2. unfold after in *.
  destruct (begun_call_shape sdb f1 args1 kw1 s c1 Hk1 Hb1)
    as (Hn1 & He1 & Hl1).
  destruct (begun_call_shape sdb f2 args2 kw2 _ c2 Hk2 Hb2)
    as (Hn2 & He2 & Hl2).
  repeat split; try done.
  - intros ->. rewrite List.Forall_forall in Hl1, Hl2.
    by rewrite (Hl1 i1), (Hl2 i2).
  - intros Hne ->. apply Hne. rewrite List.Forall_forall in Hl1, Hl2.
    by rewrite (Hl1 i1), (Hl2 i2).
Qed.

Lemma two_calls_two_transactions_witness :
  logged_conn_ids
    (trace_of (transaction Scenario.sync_pool Scenario.send_ok
                 [Scenario.queue_client; VStr "first"] ∅
                 [Scenario.conn_a; Scenario.conn_b]))
    = [140001; 140001] /\
  logged_conn_ids
    (trace_of (after
                 (transaction Scenario.sync_pool Scenario.send_ok
                    [Scenario.queue_client; VStr "first"] ∅)
                 (transaction Scenario.sync_pool Scenario.send_ok
                    [Scenario.queue_client; VStr "second"] ∅)
                 [Scenario.conn_a; Scenario.conn_b]))
    = [140002; 140002] /\
  Scenario.conn_a <> Scenario.conn_b.
Proof.
  destruct (two_calls_two_transactions Scenario.sync_pool
              Scenario.send_ok Scenario.send_ok
              [Scenario.queue_client; VStr "first"]
              [Scenario.queue_client; VStr "second"] ∅ ∅
              [Scenario.conn_a; Scenario.conn_b]
              Scenario.conn_a Scenario.conn_b)
    as (_ & _ & Hid).
  - vm_compute; reflexivity.
  - vm_compute; reflexivity.
  - vm_compute. right. left. reflexivity.
  - vm_compute. right. left. reflexivity.
  - split; [vm_compute; reflexivity|].
    split; [vm_compute; reflexivity|].
    apply (Hid 140001 140002).
    + vm_compute. left. reflexivity.
    + vm_compute. left. reflexivity.
    + discriminate.
Defined.

(** C6 as stated fails with a pool that holds one connection: the first
    call gives it back, the second call acquires it again, and the log
    events of both calls carry the same identifier. *)
Lemma two_calls_counterexample :
  logged_conn_ids
    (trace_of (transaction Scenario.sync_pool Scenario.send_ok
                 [Scenario.queue_client; VStr "first"] ∅
                 [Scenario.conn_a]))
    = [140001; 140001] /\
  logged_conn_ids
    (trace_of (after
                 (transaction Scenario.sync_pool Scenario.send_ok
                    [Scenario.queue_client; VStr "first"] ∅)
                 (transaction Scenario.sync_pool Scenario.send_ok
                    [Scenario.queue_client; VStr "second"] ∅)
                 [Scenario.conn_a]))
    = [140001; 140001].
Proof. split; vm_compute; reflexivity. Qed.

(** The identifiers of two different connections need not differ.  A pool
    that keeps no connection closes the one it gets back; the connection it
    opens for the second call is another object, which lives where the
    first one lived, and both calls log the same identifier. *)
Lemma two_connections_one_identifier :
  logged_conn_ids
    (trace_of (transaction Faults.sync_pool_closing Scenario.send_ok
                 [Scenario.queue_client; VStr "first"] ∅
                 [Scenario.conn_a; Faults.conn_reusing_a]))
    = [140001; 140001] /\
  logged_conn_ids
    (trace_of (after
                 (transaction Faults.sync_pool_closing Scenario.send_ok
                    [Scenario.queue_client; VStr "first"] ∅)
                 (transaction Faults.sync_pool_closing Scenario.send_ok
                    [Scenario.queue_client; VStr "second"] ∅)
                 [Scenario.conn_a; Faults.conn_reusing_a]))
    = [140001; 140001] /\
  In (EAcquire Scenario.the_pool (Return Faults.conn_reusing_a))
    (trace_of (after
                 (transaction Faults.sync_pool_closing Scenario.send_ok
                    [Scenario.queue_client; VStr "first"] ∅)
                 (transaction Faults.sync_pool_closing Scenario.send_ok
                    [Scenario.queue_client; VStr "second"] ∅)
                 [Scenario.conn_a; Faults.conn_reusing_a])) /\
  Scenario.conn_a <> Faults.conn_reusing_a.
Proof.
  split; [vm_compute; reflexivity|].
  split; [vm_compute; reflexivity|].
  split; [vm_compute; left; reflexivity|discriminate].
Qed.

(** * More of the decorators *)

(** ** Decorating a decorated function *)

(** The decorators for any callable are the decorators of the source: on a
    function that is not a wrapper they run as [transaction] and
    [async_transaction] do. *)
Lemma sync_wrapper_plain {Env} (db : sync_driver Env) (qualname : string)
    (func : pyfunc Env) (args : list value) (kwargs : kwargs_t) (s : Env) :
  sync_wrapper db (plain qualname func) args kwargs s
  = transaction db func args kwargs s.
Proof. reflexivity. Qed.

Lemma async_wrapper_plain {Env} (db : async_driver Env) (qualname : string)
    (func : pyfunc Env) (self : value) (args : list value)
    (kwargs : kwargs_t) (s : Env) :
  async_wrapper db (plain qualname func) self args kwargs s
  = async_transaction db func self args kwargs s.
Proof. reflexivity. Qed.

(** The transactional path depends on the wrapped callable through its name
    and through the call with the injected connection only. *)
Lemma in_transaction_of_ext {Env} (db : sync_driver Env)
    (f1 f2 : callable Env) (o : value) (args : list value)
    (kwargs : kwargs_t) (s : Env) :
  c_name f1 = c_name f2 ->
  (forall c s', c_call f1 args (<["conn" := VConn c]> kwargs) s'
                = c_call f2 args (<["conn" := VConn c]> kwargs) s') ->
  in_transaction_of db f1 o args kwargs s
  = in_transaction_of db f2 o args kwargs s.
Proof.
  intros Hn Hi.
  unfold in_transaction_of, getattr_pool, bind.
  destruct (pool_of o) as [p|]; cbn; [|done].
  unfold with_connection, with_transaction, with_, perform.
  destruct (connection_enter db p s) as [[c|e] s1]; cbn; [|done].
  destruct (transaction_enter db c s1) as [[[]|e] s2]; cbn; [|done].
  unfold try_except_Exception, bind. rewrite Hn.
  destruct (log_transaction_start o (c_name f2) (py_id c) s2)
    as [[[[]|e] t1] s3]; [|done].
  by rewrite Hi.
Qed.

Lemma async_wrapper_ext {Env} (db : async_driver Env)
    (f1 f2 : callable Env) (self : value) (args : list value)
    (kwargs : kwargs_t) (s : Env) :
  c_name f1 = c_name f2 ->
  (forall k s', is_Some (k !! "conn") -> k !! "self" = kwargs !! "self" ->
                c_call f1 (self :: args) k s' = c_call f2 (self :: args) k s') ->
  async_wrapper db f1 self args kwargs s
  = async_wrapper db f2 self args kwargs s.
Proof.
  intros Hn Hi. unfold async_wrapper.
  destruct (kwargs !! "conn") as [v|] eqn:Hk.
  - apply Hi; [by rewrite Hk|done].
  - unfold getattr_pool, bind.
    destruct (pool_of self) as [p|]; cbn; [|done].
    unfold async_with_acquire, with_, perform.
    destruct (acquire db p s) as [[c|e] s1]; cbn; [|done].
    unfold bind.
    destruct (txn_start db c s1) as [[[]|e] s2]; cbn; [|done].
    unfold try_except_Exception, bind. rewrite Hn.
    destruct (log_transaction_start self (c_name f2) (py_id c) s2)
      as [[[[]|e] t1] s3]; [|done].
    rewrite Hi;
      [done|by rewrite lookup_insert_eq|by rewrite lookup_insert_ne].
Qed.

Lemma owner_by_rule_insert_conn (args : list value) (kwargs : kwargs_t)
    (v : value) :
  owner_by_rule args (<["conn" := v]> kwargs) = owner_by_rule args kwargs.
Proof.
  unfold owner_by_rule, queue_keyword_or_first.
  by rewrite lookup_insert_ne.
Qed.

(** The two ways of the synchronous wrapper, for a callable. *)
Lemma sync_wrapper_no_conn {Env} (db : sync_driver Env) (func : callable Env)
    (args : list value) (kwargs : kwargs_t) (s : Env) :
  kwargs !! "conn" = None ->
  sync_wrapper db func args kwargs s =
    match owner_by_rule args kwargs with
    | Some o => in_transaction_of db func o args kwargs s
    | None => (Raise IndexError, [], s)
    end.
Proof.
  intros Hk. unfold sync_wrapper.
  destruct (is_receiver args) eqn:Hr.
  - destruct args as [|a args]; [done|].
    rewrite (receiver_rule _ _ _ Hr). cbn [args0].
    by rewrite bind_ret_l, Hk.
  - unfold bind. rewrite (queue_of_rule _ _ _ Hr).
    destruct (owner_by_rule args kwargs) as [o|]; [|done].
    rewrite Hk.
    by destruct (in_transaction_of db func o args kwargs s) as [[r t] s'].
Qed.

Lemma sync_wrapper_with_conn {Env} (db : sync_driver Env)
    (func : callable Env) (args : list value) (kwargs : kwargs_t) (s : Env)
    (v : value) :
  kwargs !! "conn" = Some v ->
  sync_wrapper db func args kwargs s =
    match owner_by_rule args kwargs with
    | Some _ => c_call func args kwargs s
    | None => (Raise IndexError, [], s)
    end.
Proof.
  intros Hk. unfold sync_wrapper.
  destruct (is_receiver args) eqn:Hr.
  - destruct args as [|a args]; [done|].
    rewrite (receiver_rule _ _ _ Hr). cbn [args0].
    by rewrite bind_ret_l, Hk.
  - unfold bind. rewrite (queue_of_rule _ _ _ Hr).
    destruct (owner_by_rule args kwargs) as [o|]; [|done].
    rewrite Hk.
    by destruct (c_call func args kwargs s) as [[r t] s'].
Qed.

(** Called with a [conn] keyword, a decorated callable does what the
    callable does, and nothing else. *)
Lemma call_decorated_with_conn {Env} (db : sync_driver Env)
    (func : callable Env) (args : list value) (kwargs : kwargs_t) (s : Env) :
  is_Some (kwargs !! "conn") ->
  is_Some (owner_by_rule args kwargs) ->
  c_call (transaction_decorator db func) args kwargs s
  = c_call func args kwargs s.
Proof.
  intros [v Hk] [o Ho]. cbn [c_call transaction_decorator functools_wraps].
  by rewrite (sync_wrapper_with_conn _ _ _ _ _ _ Hk), Ho.
Qed.

Lemma sync_wrapper_decorated {Env} (db : sync_driver Env)
    (func : callable Env) (args : list value) (kwargs : kwargs_t) (s : Env) :
  sync_wrapper db (transaction_decorator db func) args kwargs s
  = sync_wrapper db func args kwargs s.
Proof.
  destruct (kwargs !! "conn") as [v|] eqn:Hk.
  - rewrite !(sync_wrapper_with_conn _ _ _ _ _ _ Hk).
    destruct (owner_by_rule args kwargs) as [o|] eqn:Ho; [|done].
    apply call_decorated_with_conn; [by rewrite Hk|by rewrite Ho].
  - rewrite !(sync_wrapper_no_conn _ _ _ _ _ Hk).
    destruct (owner_by_rule args kwargs) as [o|] eqn:Ho; [|done].
    apply in_transaction_of_ext; [done|].
    intros c s'. apply call_decorated_with_conn.
    + by rewrite lookup_insert_eq.
    + by rewrite owner_by_rule_insert_conn, Ho.
Qed.

(** X1.  Decorating twice is decorating once: a call of the twice-decorated
    callable has the outcome, the whole trace (what is acquired, begun,
    logged, called, committed or rolled back, and released, in order) and
    the final state of the same call of the once-decorated one.  The inner
    wrapper finds the connection the outer one injected and calls straight
    through, at no action of its own.  For a function that is not a wrapper
    this is the run of [transaction]. *)
Theorem decorating_twice_is_decorating_once {Env} (db : sync_driver Env)
    (args : list value) (kwargs : kwargs_t) (s : Env) :
  (forall func : callable Env,
     c_call (transaction_decorator db (transaction_decorator db func))
       args kwargs s
     = c_call (transaction_decorator db func) args kwargs s) /\
  (forall (qualname : string) (func : pyfunc Env),
     c_call (transaction_decorator db
               (transaction_decorator db (plain qualname func)))
       args kwargs s
     = transaction db func args kwargs s).
Proof.
  split; intros; cbn [c_call transaction_decorator functools_wraps];
    by rewrite sync_wrapper_decorated.
Qed.

(** Bound to a [self] that is not also among the keywords, the wrapper of a
    decorated coroutine function runs as the wrapper of the function. *)
Lemma async_wrapper_decorated {Env} (db : async_driver Env)
    (func : callable Env) (self : value) (args : list value)
    (kwargs : kwargs_t) (s : Env) :
  kwargs !! "self" = None ->
  async_wrapper db (async_transaction_decorator db func) self args kwargs s
  = async_wrapper db func self args kwargs s.
Proof.
  intros Hself. apply async_wrapper_ext; [done|].
  intros k s' [v Hk] Hs.
  cbn [c_call c_qualname async_transaction_decorator functools_wraps].
  unfold bind_self. rewrite Hs, Hself, bind_ret_l.
  unfold async_wrapper. by rewrite Hk.
Qed.

(** X2.  The same for the asynchronous decorator, for every call: the
    arguments are bound to [self], [*args] and [**kwargs] the same way by
    both wrappers, a call that cannot be bound fails with the same
    [TypeError], and a call that can has the outcome, the whole trace and
    the final state of the same call of the once-decorated callable.  For a
    function that is not a wrapper this is the run of [async_transaction]
    on the bound arguments. *)
Theorem async_decorating_twice_is_decorating_once {Env}
    (db : async_driver Env) (args : list value) (kwargs : kwargs_t)
    (s : Env) :
  (forall func : callable Env,
     c_call (async_transaction_decorator db
               (async_transaction_decorator db func)) args kwargs s
     = c_call (async_transaction_decorator db func) args kwargs s) /\
  (forall (qualname : string) (func : pyfunc Env),
     c_call (async_transaction_decorator db
               (async_transaction_decorator db (plain qualname func)))
       args kwargs s
     = (let! bound := bind_self qualname args kwargs in
        let '(self, rest, kwargs') := bound in
        async_transaction db func self rest kwargs') s).
Proof.
  assert (H : forall func : callable Env,
    c_call (async_transaction_decorator db
              (async_transaction_decorator db func)) args kwargs s
    = c_call (async_transaction_decorator db func) args kwargs s).
  { intros func.
    cbn [c_call c_qualname async_transaction_decorator functools_wraps].
    unfold bind_self.
    destruct args as [|self rest], (kwargs !! "self") as [v|] eqn:Hs;
      try done; rewrite !bind_ret_l.
    - apply async_wrapper_decorated. by rewrite lookup_delete_eq.
    - by apply async_wrapper_decorated. }
  split; [done|].
  intros qualname func. rewrite H.
  cbn [c_call c_qualname async_transaction_decorator functools_wraps plain].
  unfold bind_self.
  destruct args as [|self rest], (kwargs !! "self") as [v|]; done.
Qed.

(** ** What every call does and never does *)

(** X3.  No connection leaks: in either wrapper, whatever happens, there
    are as many releases as successful acquisitions, and a connection that
    was acquired is released to its pool as the last action of the call. *)
Theorem acquired_connection_is_released_last {Env} (sdb : sync_driver Env)
    (adb : async_driver Env) (func : pyfunc Env) (self : value)
    (args : list value) (kwargs : kwargs_t) (s : Env) :
  (count is_release (trace_of (transaction sdb func args kwargs s))
   = count is_acquired (trace_of (transaction sdb func args kwargs s)) /\
   forall p c,
     In (EAcquire p (Return c))
        (trace_of (transaction sdb func args kwargs s)) ->
     last (trace_of (transaction sdb func args kwargs s))
     = Some (ERelease p c)) /\
  (count is_release
     (trace_of (async_transaction adb func self args kwargs s))
   = count is_acquired
       (trace_of (async_transaction adb func self args kwargs s)) /\
   forall p c,
     In (EAcquire p (Return c))
        (trace_of (async_transaction adb func self args kwargs s)) ->
     last (trace_of (async_transaction adb func self args kwargs s))
     = Some (ERelease p c)).
Proof.
  split.
  - destruct (kwargs !! "conn") as [v|] eqn:Hk.
    + rewrite (transaction_with_conn _ _ _ _ _ _ Hk).
      destruct (owner_by_rule args kwargs);
        [rewrite invoke_run|]; cbn; (split; [done|]);
        intros; clear_trace_facts.
    + sync_cases Hk; (split; [done|]); intros; clear_trace_facts; done.
  - destruct (kwargs !! "conn") as [v|] eqn:Hk.
    + rewrite (async_transaction_with_conn _ _ _ _ _ _ _ Hk), invoke_run.
      cbn. split; [done|]. intros; clear_trace_facts.
    + async_cases Hk; (split; [done|]); intros; clear_trace_facts; done.
Qed.

Lemma acquired_connection_is_released_last_witness :
  last (trace_of (transaction Scenario.sync_pool
                    (Scenario.send_raising Scenario.KeyboardInterrupt)
                    [Scenario.queue_client] ∅ [Scenario.conn_a]))
    = Some (ERelease Scenario.the_pool Scenario.conn_a) /\
  last (trace_of (async_transaction
                    (Scenario.async_pool (Raise Scenario.OperationalError)
                       (Raise Scenario.InterfaceError))
                    Scenario.send_ok Scenario.queue_client [] ∅
                    [Scenario.conn_a]))
    = Some (ERelease Scenario.the_pool Scenario.conn_a).
Proof.
  split.
  - destruct (acquired_connection_is_released_last Scenario.sync_pool
                (Scenario.async_pool (Return tt) (Return tt))
                (Scenario.send_raising Scenario.KeyboardInterrupt)
                Scenario.queue_client [Scenario.queue_client] ∅
                [Scenario.conn_a]) as [[_ Hs] _].
    apply Hs. vm_compute. left. reflexivity.
  - destruct (acquired_connection_is_released_last Scenario.sync_pool
                (Scenario.async_pool (Raise Scenario.OperationalError)
                   (Raise Scenario.InterfaceError))
                Scenario.send_ok
                Scenario.queue_client [] ∅
                [Scenario.conn_a]) as [_ [_ Ha]].
    apply Ha. vm_compute. left. reflexivity.
Defined.

(** X4.  No retry: in either wrapper the wrapped callable is called at
    most once per call, whatever fails. *)
Theorem callable_is_called_at_most_once {Env} (sdb : sync_driver Env)
    (adb : async_driver Env) (func : pyfunc Env) (self : value)
    (args : list value) (kwargs : kwargs_t) (s : Env) :
  (count is_invoke (trace_of (transaction sdb func args kwargs s)) <= 1)%nat /\
  (count is_invoke
     (trace_of (async_transaction adb func self args kwargs s)) <= 1)%nat.
Proof.
  split.
  - destruct (kwargs !! "conn") as [v|] eqn:Hk.
    + rewrite (transaction_with_conn _ _ _ _ _ _ Hk).
      destruct (owner_by_rule args kwargs); [rewrite invoke_run|]; cbn; lia.
    + sync_cases Hk; cbn; lia.
  - destruct (kwargs !! "conn") as [v|] eqn:Hk.
    + rewrite (async_transaction_with_conn _ _ _ _ _ _ _ Hk), invoke_run.
      cbn. lia.
    + async_cases Hk; cbn; lia.
Qed.

(** X5.  The log can be trusted.  In either wrapper, a transaction-error
    event carries the exception the call ends with, an instance of
    [Exception], and a transaction-success event means that the call
    returns what the callable returned; no call logs both. *)
Theorem log_events_tell_the_outcome {Env} (sdb : sync_driver Env)
    (adb : async_driver Env) (func : pyfunc Env) (self : value)
    (args : list value) (kwargs : kwargs_t) (s : Env) :
  ((forall lg n e cid,
      In (ELog lg (TransactionError n e cid))
         (trace_of (transaction sdb func args kwargs s)) ->
      result_of (transaction sdb func args kwargs s) = Raise e /\
      exn_is_Exception e = true /\
      count is_success_log (trace_of (transaction sdb func args kwargs s))
        = 0%nat) /\
   (forall lg n cid,
      In (ELog lg (TransactionSuccess n cid))
         (trace_of (transaction sdb func args kwargs s)) ->
      exists a k v,
        In (EInvoke a k (Return v))
           (trace_of (transaction sdb func args kwargs s)) /\
        result_of (transaction sdb func args kwargs s) = Return v)) /\
  ((forall lg n e cid,
      In (ELog lg (TransactionError n e cid))
         (trace_of (async_transaction adb func self args kwargs s)) ->
      result_of (async_transaction adb func self args kwargs s) = Raise e /\
      exn_is_Exception e = true /\
      count is_success_log
        (trace_of (async_transaction adb func self args kwargs s)) = 0%nat) /\
   (forall lg n cid,
      In (ELog lg (TransactionSuccess n cid))
         (trace_of (async_transaction adb func self args kwargs s)) ->
      exists a k v,
        In (EInvoke a k (Return v))
           (trace_of (async_transaction adb func self args kwargs s)) /\
        result_of (async_transaction adb func self args kwargs s)
        = Return v)).
Proof.
  split.
  - destruct (kwargs !! "conn") as [v|] eqn:Hk.
    + rewrite (transaction_with_conn _ _ _ _ _ _ Hk).
      destruct (owner_by_rule args kwargs);
        [rewrite invoke_run|]; cbn; split; intros; clear_trace_facts.
    + sync_cases Hk; (split; intros; clear_trace_facts); try done.
      eexists _, _, _. split; [|done]. cbn. tauto.
  - destruct (kwargs !! "conn") as [v|] eqn:Hk.
    + rewrite (async_transaction_with_conn _ _ _ _ _ _ _ Hk), invoke_run.
      cbn. split; intros; clear_trace_facts.
    + async_cases Hk; (split; intros; clear_trace_facts); try done.
      eexists _, _, _. split; [|done]. cbn. tauto.
Qed.

Lemma log_events_tell_the_outcome_witness :
  result_of (transaction Scenario.sync_pool
               (Scenario.send_raising Scenario.ValueError)
               [Scenario.queue_client] ∅ [Scenario.conn_a])
    = Raise Scenario.ValueError /\
  result_of (async_transaction
               (Scenario.async_pool (Raise Scenario.OperationalError)
                  (Return tt))
               Scenario.send_ok Scenario.queue_client [] ∅ [Scenario.conn_a])
    = Raise Scenario.OperationalError.
Proof.
  split.
  - destruct (log_events_tell_the_outcome Scenario.sync_pool
                (Scenario.async_pool (Return tt) (Return tt))
                (Scenario.send_raising Scenario.ValueError)
                Scenario.queue_client [Scenario.queue_client] ∅
                [Scenario.conn_a]) as [[Hs _] _].
    eapply (Hs Scenario.the_logger "send" Scenario.ValueError 140001).
    vm_compute. do 4 right. left. reflexivity.
  - destruct (log_events_tell_the_outcome Scenario.sync_pool
                (Scenario.async_pool (Raise Scenario.OperationalError)
                   (Return tt))
                Scenario.send_ok
                Scenario.queue_client [] ∅
                [Scenario.conn_a]) as [_ [Ha _]].
    eapply (Ha Scenario.the_logger "send" Scenario.OperationalError 140001).
    vm_compute. do 6 right. left. reflexivity.
Defined.

(** ** How a transaction ends *)

(** X6.  In the synchronous wrapper a transaction that was begun is ended
    exactly once before the call returns: by commit when the call returns a
    value and by rollback when it raises, whatever the exception, an
    instance of [Exception] or not. *)
Theorem sync_transaction_ends_with_the_call {Env} (sdb : sync_driver Env)
    (func : pyfunc Env) (args : list value) (kwargs : kwargs_t) (s : Env)
    (c : connection) :
  In (EBegin c (Return tt)) (trace_of (transaction sdb func args kwargs s)) ->
  (count is_commit (trace_of (transaction sdb func args kwargs s))
   + count is_rollback (trace_of (transaction sdb func args kwargs s))
   = 1)%nat /\
  (In (ECommit c (Return tt)) (trace_of (transaction sdb func args kwargs s))
   <-> exists v, result_of (transaction sdb func args kwargs s) = Return v) /\
  (In (ERollback c (Return tt))
      (trace_of (transaction sdb func args kwargs s))
   <-> exists e, result_of (transaction sdb func args kwargs s) = Raise e).
Proof.
  intros Hin.
  destruct (kwargs !! "conn") as [v|] eqn:Hk.
  - rewrite (transaction_with_conn _ _ _ _ _ _ Hk) in *.
    destruct (owner_by_rule args kwargs); [|destruct Hin].
    rewrite invoke_run in Hin. cbn in Hin. clear_trace_facts.
  - sync_cases Hk; clear_trace_facts; (split; [done|]);
      split; split; intros Hx;
      try (by eexists); try (cbn; tauto);
      try (destruct Hx as [? Hx]; discriminate Hx);
      clear_trace_facts.
Qed.

Lemma sync_transaction_ends_with_the_call_witness :
  In (ERollback Scenario.conn_a (Return tt))
     (trace_of (transaction Scenario.sync_pool
                  (Scenario.send_raising Scenario.KeyboardInterrupt)
                  [Scenario.queue_client] ∅ [Scenario.conn_a])).
Proof.
  destruct (sync_transaction_ends_with_the_call Scenario.sync_pool
              (Scenario.send_raising Scenario.KeyboardInterrupt)
              [Scenario.queue_client] ∅ [Scenario.conn_a] Scenario.conn_a)
    as (_ & _ & Hr).
  - vm_compute. right. left. reflexivity.
  - apply Hr. eexists. vm_compute. reflexivity.
Defined.



(** X8.  When beginning the transaction raises, in either wrapper, the
    connection goes back to the pool and the exception reaches the caller;
    nothing is logged, the callable is not called, and neither commit nor
    rollback happens. *)
Theorem begin_failure_releases_and_propagates {Env} (sdb : sync_driver Env)
    (adb : async_driver Env) (func : pyfunc Env) (self : value)
    (args : list value) (kwargs : kwargs_t) (s : Env) (c : connection)
    (e : exn) :
  (In (EBegin c (Raise e)) (trace_of (transaction sdb func args kwargs s)) ->
   result_of (transaction sdb func args kwargs s) = Raise e /\
   exists p,
     trace_of (transaction sdb func args kwargs s)
     = [EAcquire p (Return c); EBegin c (Raise e); ERelease p c]) /\
  (In (EBegin c (Raise e))
      (trace_of (async_transaction adb func self args kwargs s)) ->
   result_of (async_transaction adb func self args kwargs s) = Raise e /\
   exists p,
     trace_of (async_transaction adb func self args kwargs s)
     = [EAcquire p (Return c); EBegin c (Raise e); ERelease p c]).
Proof.
  split; intros Hin.
  - destruct (kwargs !! "conn") as [v|] eqn:Hk.
    + rewrite (transaction_with_conn _ _ _ _ _ _ Hk) in *.
      destruct (owner_by_rule args kwargs); [|destruct Hin].
      rewrite invoke_run in Hin. cbn in Hin. clear_trace_facts.
    + sync_cases Hk; clear_trace_facts. split; [done|]. by exists p.
  - destruct (kwargs !! "conn") as [v|] eqn:Hk.
    + rewrite (async_transaction_with_conn _ _ _ _ _ _ _ Hk) in *.
      rewrite invoke_run in Hin. cbn in Hin. clear_trace_facts.
    + async_cases Hk; clear_trace_facts. split; [done|]. by exists p.
Qed.

Lemma begin_failure_releases_and_propagates_witness :
  result_of (transaction Faults.sync_begin_fails Scenario.send_ok
               [Scenario.queue_client] ∅ [Scenario.conn_a])
    = Raise Scenario.OperationalError /\
  result_of (async_transaction Faults.async_start_fails Scenario.send_ok
               Scenario.queue_client [] ∅ [Scenario.conn_a])
    = Raise Scenario.OperationalError.
Proof.
  split.
  - destruct (begin_failure_releases_and_propagates Faults.sync_begin_fails
                Faults.async_start_fails Scenario.send_ok
                Scenario.queue_client [Scenario.queue_client] ∅
                [Scenario.conn_a] Scenario.conn_a Scenario.OperationalError)
      as [Hs _].
    apply Hs. vm_compute. right. left. reflexivity.
  - destruct (begin_failure_releases_and_propagates Faults.sync_begin_fails
                Faults.async_start_fails Scenario.send_ok
                Scenario.queue_client [] ∅
                [Scenario.conn_a] Scenario.conn_a Scenario.OperationalError)
      as [_ Ha].
    apply Ha. vm_compute. right. left. reflexivity.
Defined.

(** ** An owner without pool or without logger *)

(** X20.  The second branch of the synchronous wrapper takes the owner as
    it comes.  Without a [pool] attribute the call fails with
    [AttributeError] before anything is done.  Without a [logger] attribute
    the connection is acquired and the transaction begun before the first
    log call fails with [AttributeError]: the transaction is rolled back,
    the connection released, and the callable is never called. *)
Theorem owner_without_pool_or_logger {Env} (sdb : sync_driver Env)
    (func : pyfunc Env) (args : list value) (kwargs : kwargs_t) (s : Env)
    (o : value) :
  kwargs !! "conn" = None ->
  owner_by_rule args kwargs = Some o ->
  (pool_of o = None ->
   transaction sdb func args kwargs s
   = (Raise (AttributeError o "pool"), [], s)) /\
  (logger_of o = None ->
   forall c,
     In (EBegin c (Return tt))
        (trace_of (transaction sdb func args kwargs s)) ->
     result_of (transaction sdb func args kwargs s)
     = Raise (AttributeError o "logger") /\
     exists p,
       trace_of (transaction sdb func args kwargs s)
       = [EAcquire p (Return c); EBegin c (Return tt);
          ERollback c (Return tt); ERelease p c]).
Proof.
  intros Hk Ho. split.
  - intros Hp. rewrite (transaction_no_conn _ _ _ _ _ Hk), Ho.
    unfold in_transaction, getattr_pool. by rewrite Hp.
  - intros Hl c Hin.
    sync_cases Hk; clear_trace_facts; try congruence.
    split; [congruence|]. by exists p.
Qed.

Lemma owner_without_pool_or_logger_witness :
  result_of (transaction Scenario.sync_pool Scenario.send_ok
               [VStr "tasks"] {["queue" := Faults.client_without_logger]}
               [Scenario.conn_a])
  = Raise (Exn "AttributeError"
             "'QueueClient' object has no attribute 'logger'" true).
Proof.
  destruct (owner_without_pool_or_logger Scenario.sync_pool Scenario.send_ok
              [VStr "tasks"] {["queue" := Faults.client_without_logger]}
              [Scenario.conn_a] Faults.client_without_logger)
    as [_ H].
  - vm_compute. reflexivity.
  - vm_compute. reflexivity.
  - eapply (H eq_refl Scenario.conn_a).
    vm_compute. right. left. reflexivity.
Defined.

(** * The in-memory queue *)

Section FakeQueueFacts.

Context {Payload : Type}.
Variable now_at : nat -> Z.

Implicit Types (qs : list (string * list (@FakeQueue.Message Payload))).
Implicit Types (st : @FakeQueue.t Payload).
Implicit Types (l : list (@FakeQueue.Message Payload)).
Implicit Types (q : string).

(** ** The dictionary *)

Lemma lookup_queue_None qs q :
  FakeQueue.lookup_queue q qs = None <-> q ∉ fst <$> qs.
Proof.
  induction qs as [|[k l0] qs IH]; cbn.
  - split; [intros _; apply not_elem_of_nil|done].
  - rewrite not_elem_of_cons. destruct (String.eqb_spec k q) as [->|Hne].
    + split; [done|]. by intros [? _].
    + rewrite IH. split; [by intros ?; split|by intros [_ ?]].
Qed.

Lemma lookup_store_eq qs q l l0 :
  FakeQueue.lookup_queue q qs = Some l0 ->
  FakeQueue.lookup_queue q (FakeQueue.store_queue q l qs) = Some l.
Proof.
  induction qs as [|[k l1] qs IH]; cbn; [done|].
  destruct (String.eqb_spec k q) as [->|Hne]; cbn.
  - by rewrite String.eqb_refl.
  - intros H. destruct (String.eqb_spec k q); [done|]. by apply IH.
Qed.

Lemma lookup_store_ne qs q q' l :
  q' <> q ->
  FakeQueue.lookup_queue q' (FakeQueue.store_queue q l qs)
  = FakeQueue.lookup_queue q' qs.
Proof.
  intros Hne. induction qs as [|[k l1] qs IH]; cbn; [done|].
  destruct (String.eqb_spec k q) as [->|Hk]; cbn.
  - by destruct (String.eqb_spec q q').
  - destruct (String.eqb_spec k q'); [done|]. apply IH.
Qed.

Lemma keys_store qs q l :
  fst <$> FakeQueue.store_queue q l qs = fst <$> qs.
Proof.
  induction qs as [|[k l1] qs IH]; cbn; [done|].
  destruct (String.eqb_spec k q); cbn; [done|]. by rewrite IH.
Qed.

Lemma lookup_snoc qs q q' l :
  FakeQueue.lookup_queue q' (qs ++ [(q, l)])
  = match FakeQueue.lookup_queue q' qs with
    | Some l0 => Some l0
    | None => if String.eqb q q' then Some l else None
    end.
Proof.
  induction qs as [|[k l1] qs IH]; cbn; [done|].
  by destruct (String.eqb_spec k q').
Qed.

(** Where a queue sits in the dictionary, and what storing does there. *)
Lemma store_split qs q l0 :
  FakeQueue.lookup_queue q qs = Some l0 ->
  exists pre post,
    qs = pre ++ (q, l0) :: post /\
    forall l, FakeQueue.store_queue q l qs = pre ++ (q, l) :: post.
Proof.
  induction qs as [|[k l1] qs IH]; cbn; [done|].
  destruct (String.eqb_spec k q) as [->|Hne].
  - intros [= ->]. by exists [], qs.
  - intros H. destruct (IH H) as (pre & post & -> & Hs).
    exists ((k, l1) :: pre), post. split; [done|].
    intros l. cbn. by rewrite Hs.
Qed.

Lemma all_ids_split st q l0 :
  FakeQueue.lookup_queue q (FakeQueue.queues st) = Some l0 ->
  exists a b,
    FakeQueue.all_ids st = a ++ FakeQueue.ids_of l0 ++ b /\
    forall l, FakeQueue.all_ids (FakeQueue.setitem st q l)
              = a ++ FakeQueue.ids_of l ++ b.
Proof.
  intros H. destruct (store_split _ _ _ H) as (pre & post & Hq & Hs).
  exists (concat ((fun kl => FakeQueue.ids_of (snd kl)) <$> pre)),
         (concat ((fun kl => FakeQueue.ids_of (snd kl)) <$> post)).
  unfold FakeQueue.all_ids, FakeQueue.setitem. cbn.
  split; [rewrite Hq|intros l; rewrite Hs];
    by rewrite fmap_app, concat_app.
Qed.

(** ** [_ensure_queue] *)

Lemma ensure_present st q :
  FakeQueue.lookup_queue q (FakeQueue.queues (FakeQueue._ensure_queue st q))
  = Some (FakeQueue.getitem st q).
Proof.
  unfold FakeQueue._ensure_queue, FakeQueue.getitem.
  destruct (FakeQueue.lookup_queue q (FakeQueue.queues st)) as [l|] eqn:H;
    cbn; [done|].
  by rewrite lookup_snoc, H, String.eqb_refl.
Qed.

Lemma getitem_ensure st q q' :
  FakeQueue.getitem (FakeQueue._ensure_queue st q) q' = FakeQueue.getitem st q'.
Proof.
  unfold FakeQueue._ensure_queue, FakeQueue.getitem.
  destruct (FakeQueue.lookup_queue q (FakeQueue.queues st)) eqn:H;
    cbn; [done|].
  rewrite lookup_snoc.
  destruct (FakeQueue.lookup_queue q' (FakeQueue.queues st)); [done|].
  by destruct (String.eqb q q').
Qed.

Lemma list_queues_ensure st q :
  FakeQueue.list_queues (FakeQueue._ensure_queue st q)
  = if decide (q ∈ FakeQueue.list_queues st)
    then FakeQueue.list_queues st
    else FakeQueue.list_queues st ++ [q].
Proof.
  unfold FakeQueue._ensure_queue, FakeQueue.list_queues.
  destruct (FakeQueue.lookup_queue q (FakeQueue.queues st)) eqn:H.
  - rewrite decide_True; [done|].
    destruct (decide (q ∈ fst <$> FakeQueue.queues st)) as [|Hn]; [done|].
    apply lookup_queue_None in Hn. congruence.
  - rewrite decide_False by by apply lookup_queue_None.
    cbn. by rewrite fmap_app.
Qed.

Lemma all_ids_ensure st q :
  FakeQueue.all_ids (FakeQueue._ensure_queue st q) = FakeQueue.all_ids st.
Proof.
  unfold FakeQueue._ensure_queue, FakeQueue.all_ids.
  destruct (FakeQueue.lookup_queue q (FakeQueue.queues st)); cbn; [done|].
  rewrite fmap_app, concat_app. cbn. by rewrite app_nil_r.
Qed.

Lemma next_id_ensure st q :
  FakeQueue.next_id (FakeQueue._ensure_queue st q) = FakeQueue.next_id st.
Proof.
  unfold FakeQueue._ensure_queue.
  by destruct (FakeQueue.lookup_queue q (FakeQueue.queues st)).
Qed.

Lemma clock_ensure st q :
  FakeQueue.clock (FakeQueue._ensure_queue st q) = FakeQueue.clock st.
Proof.
  unfold FakeQueue._ensure_queue.
  by destruct (FakeQueue.lookup_queue q (FakeQueue.queues st)).
Qed.

Lemma ensure_well_formed st q :
  FakeQueue.well_formed st -> FakeQueue.well_formed (FakeQueue._ensure_queue st q).
Proof.
  intros (Hk & Hn & Hp & Hb). unfold FakeQueue.well_formed.
  rewrite all_ids_ensure, next_id_ensure, list_queues_ensure.
  split; [|done].
  destruct (decide (q ∈ FakeQueue.list_queues st)); [done|].
  apply NoDup_app. split; [done|]. split; [|apply NoDup_singleton].
  intros x Hx Hq. apply list_elem_of_singleton in Hq. by subst.
Qed.

(** ** Reading and writing one queue *)

Lemma getitem_setitem st q l q' :
  is_Some (FakeQueue.lookup_queue q (FakeQueue.queues st)) ->
  FakeQueue.getitem (FakeQueue.setitem st q l) q'
  = if decide (q' = q) then l else FakeQueue.getitem st q'.
Proof.
  intros [l0 H]. unfold FakeQueue.getitem, FakeQueue.setitem. cbn.
  destruct (decide (q' = q)) as [->|Hne].
  - by rewrite (lookup_store_eq _ _ _ _ H).
  - by rewrite lookup_store_ne.
Qed.

Lemma list_queues_setitem st q l :
  FakeQueue.list_queues (FakeQueue.setitem st q l) = FakeQueue.list_queues st.
Proof. apply keys_store. Qed.

(** Replacing the messages of a queue by some of them keeps the state well
    formed. *)
Lemma setitem_sublist_well_formed st q l :
  FakeQueue.well_formed st ->
  l `sublist_of` FakeQueue.getitem st q ->
  FakeQueue.well_formed (FakeQueue.setitem st q l).
Proof.
  intros (Hk & Hn & Hp & Hb) Hl. unfold FakeQueue.well_formed.
  rewrite list_queues_setitem. split; [done|].
  unfold FakeQueue.getitem in Hl.
  destruct (FakeQueue.lookup_queue q (FakeQueue.queues st)) as [l0|] eqn:H.
  - destruct (all_ids_split _ _ _ H) as (a & b & Ha & Hs).
    rewrite Hs. cbn in Hl. rewrite Ha in Hn, Hb.
    assert (Hsub : a ++ FakeQueue.ids_of l ++ b
                   `sublist_of` a ++ FakeQueue.ids_of l0 ++ b).
    { apply sublist_app; [done|]. apply sublist_app; [|done].
      unfold FakeQueue.ids_of. by rewrite Hl. }
    split; [by eapply sublist_NoDup|]. split; [done|].
    cbn. rewrite Forall_forall in Hb |- *.
    intros x Hx. apply Hb. by eapply elem_of_sublist.
  - cbn in Hl. apply sublist_nil_r in Hl as ->.
    unfold FakeQueue.setitem, FakeQueue.all_ids. cbn.
    assert (Hs : FakeQueue.store_queue q [] (FakeQueue.queues st)
                 = FakeQueue.queues st).
    { clear -H. induction (FakeQueue.queues st) as [|[k l1] qs IH];
        cbn in *; [done|].
      destruct (String.eqb_spec k q); [done|]. by rewrite IH. }
    by rewrite Hs.
Qed.

(** ** What each method does to the state *)

Lemma send_fst st q p :
  fst (FakeQueue.send now_at st q p) = FakeQueue.next_id st.
Proof. unfold FakeQueue.send. cbn. apply next_id_ensure. Qed.

Lemma send_next_id st q p :
  FakeQueue.next_id (snd (FakeQueue.send now_at st q p))
  = FakeQueue.next_id st + 1.
Proof. unfold FakeQueue.send. cbn. by rewrite next_id_ensure. Qed.

Lemma send_list_queues st q p :
  FakeQueue.list_queues (snd (FakeQueue.send now_at st q p))
  = FakeQueue.list_queues (FakeQueue._ensure_queue st q).
Proof. unfold FakeQueue.send, FakeQueue.list_queues. cbn. apply keys_store. Qed.

Lemma send_getitem st q p q' :
  FakeQueue.getitem (snd (FakeQueue.send now_at st q p)) q'
  = if decide (q' = q)
    then FakeQueue.getitem st q ++
         [FakeQueue.mkMessage (FakeQueue.next_id st) 0
            (now_at (FakeQueue.clock st)) (now_at (FakeQueue.clock st)) p]
    else FakeQueue.getitem st q'.
Proof.
  unfold FakeQueue.send. cbn.
  change (FakeQueue.getitem
            (FakeQueue.mkFakeQueue ?qs _ _) q')
    with (default [] (FakeQueue.lookup_queue q' qs)).
  pose proof (ensure_present st q) as He.
  destruct (decide (q' = q)) as [->|Hne].
  - rewrite (lookup_store_eq _ _ _ _ He). cbn.
    by rewrite getitem_ensure, next_id_ensure, clock_ensure.
  - rewrite lookup_store_ne by done.
    apply (getitem_ensure st q q').
Qed.

Lemma send_well_formed st q p :
  FakeQueue.well_formed st ->
  FakeQueue.well_formed (snd (FakeQueue.send now_at st q p)).
Proof.
  intros Hwf. apply (ensure_well_formed _ q) in Hwf.
  destruct Hwf as (Hk & Hn & Hp & Hb).
  unfold FakeQueue.well_formed.
  rewrite send_list_queues, send_next_id. split; [done|].
  destruct (all_ids_split _ _ _ (ensure_present st q)) as (a & b & Ha & Hs).
  set (m := FakeQueue.mkMessage (FakeQueue.next_id st) 0
              (now_at (FakeQueue.clock st)) (now_at (FakeQueue.clock st)) p).
  assert (Hall : FakeQueue.all_ids (snd (FakeQueue.send now_at st q p))
                 = a ++ FakeQueue.ids_of (FakeQueue.getitem st q ++ [m]) ++ b).
  { rewrite <- Hs. unfold FakeQueue.send, FakeQueue.all_ids,
      FakeQueue.setitem. cbn.
    by rewrite getitem_ensure, next_id_ensure, clock_ensure. }
  rewrite Hall. rewrite next_id_ensure in Hp, Hb.
  assert (Hperm : a ++ FakeQueue.ids_of (FakeQueue.getitem st q ++ [m]) ++ b
                  ≡ₚ FakeQueue.next_id st
                     :: a ++ FakeQueue.ids_of (FakeQueue.getitem st q) ++ b).
  { unfold FakeQueue.ids_of. rewrite fmap_app. cbn.
    rewrite <- (app_assoc _ [_]). cbn.
    rewrite (app_assoc a), <- Permutation_middle.
    by rewrite <- app_assoc. }
  rewrite Hperm, <- Ha.
  split; [|split; [lia|]].
  - apply NoDup_cons. split; [|done].
    intros Hin. rewrite Forall_forall in Hb. apply Hb in Hin. lia.
  - apply Forall_cons. split; [lia|].
    eapply Forall_impl; [exact Hb|]. cbn. intros; lia.
Qed.

Lemma send_batch_cons st q p ps :
  FakeQueue.send_batch now_at st q (p :: ps)
  = (fst (FakeQueue.send now_at st q p)
       :: fst (FakeQueue.send_batch now_at
                 (snd (FakeQueue.send now_at st q p)) q ps),
     snd (FakeQueue.send_batch now_at
            (snd (FakeQueue.send now_at st q p)) q ps)).
Proof.
  cbn [FakeQueue.send_batch].
  destruct (FakeQueue.send now_at st q p) as [i st1]. cbn [fst snd].
  by destruct (FakeQueue.send_batch now_at st1 q ps).
Qed.

Lemma delete_batch_cons st q i ids :
  FakeQueue.delete_batch st q (i :: ids)
  = ((if fst (FakeQueue.delete st q i)
      then i :: fst (FakeQueue.delete_batch
                       (snd (FakeQueue.delete st q i)) q ids)
      else fst (FakeQueue.delete_batch
                  (snd (FakeQueue.delete st q i)) q ids)),
     snd (FakeQueue.delete_batch (snd (FakeQueue.delete st q i)) q ids)).
Proof.
  cbn [FakeQueue.delete_batch].
  destruct (FakeQueue.delete st q i) as [b st1]. cbn [fst snd].
  by destruct (FakeQueue.delete_batch st1 q ids).
Qed.

(** Line 9 binds [Message] and stops at [QueueMetrics]. *)
Lemma imported_names : FakeQueue.imported = ["Message"].
Proof. reflexivity. Qed.

(** [metrics] gets as far as the name [QueueMetrics]. *)
Lemma metrics_run st q :
  FakeQueue.metrics now_at st q
  = (Raise (FakeQueue.NameError "QueueMetrics"),
     FakeQueue.mkFakeQueue
       (FakeQueue.queues (FakeQueue._ensure_queue st q))
       (FakeQueue.next_id (FakeQueue._ensure_queue st q))
       (S (FakeQueue.clock (FakeQueue._ensure_queue st q)))).
Proof. reflexivity. Qed.

Lemma metrics_each_cons st n ns :
  FakeQueue.metrics_each now_at st (n :: ns)
  = (Raise (FakeQueue.NameError "QueueMetrics"),
     snd (FakeQueue.metrics now_at st n)).
Proof. cbn [FakeQueue.metrics_each]. by rewrite metrics_run. Qed.

Lemma send_batch_well_formed st q ps :
  FakeQueue.well_formed st ->
  FakeQueue.well_formed (snd (FakeQueue.send_batch now_at st q ps)).
Proof.
  revert st. induction ps as [|p ps IH]; intros st Hwf; [done|].
  rewrite send_batch_cons. cbn [snd]. apply IH. by apply send_well_formed.
Qed.

Lemma remove_first_sublist l l' id :
  FakeQueue.remove_first id l = Some l' -> l' `sublist_of` l.
Proof.
  revert l'. induction l as [|m l IH]; intros l'; cbn; [done|].
  destruct (FakeQueue.msg_id m =? id).
  - intros [= ->]. by apply sublist_cons.
  - destruct (FakeQueue.remove_first id l) as [l1|]; cbn; [|done].
    intros [= <-]. apply sublist_skip. by apply IH.
Qed.

Lemma delete_well_formed st q id :
  FakeQueue.well_formed st ->
  FakeQueue.well_formed (snd (FakeQueue.delete st q id)).
Proof.
  intros Hwf. apply (ensure_well_formed _ q) in Hwf.
  unfold FakeQueue.delete.
  destruct (FakeQueue.remove_first id
              (FakeQueue.getitem (FakeQueue._ensure_queue st q) q))
    as [l|] eqn:Hr; cbn; [|done].
  apply setitem_sublist_well_formed; [done|].
  by eapply remove_first_sublist.
Qed.

Lemma delete_batch_well_formed st q ids :
  FakeQueue.well_formed st ->
  FakeQueue.well_formed (snd (FakeQueue.delete_batch st q ids)).
Proof.
  revert st. induction ids as [|i ids IH]; intros st Hwf; [done|].
  rewrite delete_batch_cons. cbn [snd]. apply IH. by apply delete_well_formed.
Qed.

Lemma pop_well_formed st q :
  FakeQueue.well_formed st ->
  FakeQueue.well_formed (snd (FakeQueue.pop st q)).
Proof.
  intros Hwf. apply (ensure_well_formed _ q) in Hwf.
  unfold FakeQueue.pop.
  destruct (FakeQueue.getitem (FakeQueue._ensure_queue st q) q)
    as [|m l] eqn:Hg; cbn; [done|].
  apply setitem_sublist_well_formed; [done|].
  rewrite Hg. by apply sublist_cons.
Qed.

Lemma metrics_well_formed st q :
  FakeQueue.well_formed st ->
  FakeQueue.well_formed (snd (FakeQueue.metrics now_at st q)).
Proof.
  intros Hwf. rewrite metrics_run. cbn [snd].
  by apply (ensure_well_formed _ q) in Hwf.
Qed.

Lemma metrics_each_well_formed st names :
  FakeQueue.well_formed st ->
  FakeQueue.well_formed (snd (FakeQueue.metrics_each now_at st names)).
Proof.
  intros Hwf. destruct names as [|n ns]; [done|].
  rewrite metrics_each_cons. cbn [snd]. by apply metrics_well_formed.
Qed.

Lemma step_well_formed (c : FakeQueue.call) st :
  FakeQueue.well_formed st ->
  FakeQueue.well_formed (snd (FakeQueue.step now_at c st)).
Proof.
  intros Hwf. destruct c; cbn [FakeQueue.step FakeQueue.archive
    FakeQueue.archive_batch FakeQueue.metrics_all FakeQueue.read_batch snd].
  - pose proof (send_well_formed st queue payload Hwf).
    by destruct (FakeQueue.send now_at st queue payload).
  - by apply send_batch_well_formed.
  - by apply ensure_well_formed.
  - by apply pop_well_formed.
  - by apply delete_well_formed.
  - by apply delete_batch_well_formed.
  - by apply delete_well_formed.
  - by apply delete_batch_well_formed.
  - by apply metrics_well_formed.
  - by apply metrics_each_well_formed.
  - done.
Qed.

Lemma run_cons (c : FakeQueue.call) cs st :
  FakeQueue.run now_at (c :: cs) st
  = (fst (FakeQueue.step now_at c st)
       ++ fst (FakeQueue.run now_at cs (snd (FakeQueue.step now_at c st))),
     snd (FakeQueue.run now_at cs (snd (FakeQueue.step now_at c st)))).
Proof.
  cbn [FakeQueue.run].
  destruct (FakeQueue.step now_at c st) as [ids1 st1]. cbn [fst snd].
  by destruct (FakeQueue.run now_at cs st1).
Qed.

Lemma new_well_formed (clock0 : nat) :
  FakeQueue.well_formed (@FakeQueue.new Payload clock0).
Proof.
  unfold FakeQueue.well_formed, FakeQueue.new, FakeQueue.all_ids,
    FakeQueue.list_queues. cbn.
  split; [apply NoDup_nil_2|]. split; [apply NoDup_nil_2|]. split; [lia|done].
Qed.

(** X9.  Whatever calls are made on a fresh queue object, in whatever
    order, no queue name appears twice in the dictionary, no message
    identifier appears twice in the store, across all queues, and every
    stored identifier is positive and below the next one to issue. *)
Theorem fake_queue_stays_well_formed (cs : list FakeQueue.call)
    (clock0 : nat) :
  FakeQueue.well_formed
    (snd (FakeQueue.run now_at cs (@FakeQueue.new Payload clock0))).
Proof.
  generalize (new_well_formed clock0).
  generalize (@FakeQueue.new Payload clock0).
  induction cs as [|c cs IH]; intros st Hwf; [done|].
  rewrite run_cons. cbn [snd]. apply IH. by apply step_well_formed.
Qed.

(** ** Identifiers *)

Lemma next_id_setitem st q l :
  FakeQueue.next_id (FakeQueue.setitem st q l) = FakeQueue.next_id st.
Proof. done. Qed.

Lemma delete_next_id st q i :
  FakeQueue.next_id (snd (FakeQueue.delete st q i)) = FakeQueue.next_id st.
Proof.
  unfold FakeQueue.delete.
  destruct (FakeQueue.remove_first i _); cbn; apply next_id_ensure.
Qed.

Lemma delete_batch_next_id st q ids :
  FakeQueue.next_id (snd (FakeQueue.delete_batch st q ids))
  = FakeQueue.next_id st.
Proof.
  revert st. induction ids as [|i ids IH]; intros st; [done|].
  rewrite delete_batch_cons. cbn [snd]. by rewrite IH, delete_next_id.
Qed.

Lemma pop_next_id st q :
  FakeQueue.next_id (snd (FakeQueue.pop st q)) = FakeQueue.next_id st.
Proof.
  unfold FakeQueue.pop.
  destruct (FakeQueue.getitem _ q); cbn; apply next_id_ensure.
Qed.

Lemma metrics_next_id st q :
  FakeQueue.next_id (snd (FakeQueue.metrics now_at st q))
  = FakeQueue.next_id st.
Proof. rewrite metrics_run. cbn. apply next_id_ensure. Qed.

Lemma metrics_each_next_id st names :
  FakeQueue.next_id (snd (FakeQueue.metrics_each now_at st names))
  = FakeQueue.next_id st.
Proof.
  destruct names as [|n ns]; [done|].
  rewrite metrics_each_cons. cbn [snd]. apply metrics_next_id.
Qed.

Lemma send_batch_issues st q ps :
  fst (FakeQueue.send_batch now_at st q ps)
  = seqZ (FakeQueue.next_id st) (Z.of_nat (length ps)) /\
  FakeQueue.next_id (snd (FakeQueue.send_batch now_at st q ps))
  = FakeQueue.next_id st + Z.of_nat (length ps).
Proof.
  revert st. induction ps as [|p ps IH]; intros st.
  - cbn. split; [done|lia].
  - rewrite send_batch_cons. cbn [fst snd length].
    destruct (IH (snd (FakeQueue.send now_at st q p))) as [-> ->].
    rewrite send_fst, send_next_id. split; [|lia].
    rewrite (seqZ_cons _ (Z.of_nat (S _))) by lia.
    do 2 f_equal; lia.
Qed.

Lemma step_issues (c : FakeQueue.call) st :
  fst (FakeQueue.step now_at c st)
  = seqZ (FakeQueue.next_id st)
      (Z.of_nat (length (fst (FakeQueue.step now_at c st)))) /\
  FakeQueue.next_id (snd (FakeQueue.step now_at c st))
  = FakeQueue.next_id st
    + Z.of_nat (length (fst (FakeQueue.step now_at c st))).
Proof.
  destruct c; cbn [FakeQueue.step FakeQueue.archive FakeQueue.archive_batch
    FakeQueue.metrics_all FakeQueue.read_batch fst snd length].
  - pose proof (send_fst st queue payload) as Hf.
    pose proof (send_next_id st queue payload) as Hn.
    destruct (FakeQueue.send now_at st queue payload) as [i st1].
    cbn in *. subst i. split; [done|lia].
  - destruct (send_batch_issues st queue messages) as [H1 H2].
    rewrite H2. rewrite H1 at 1.
    by rewrite H1, length_seqZ, Nat2Z.id.
  - rewrite next_id_ensure. split; [done|lia].
  - rewrite pop_next_id. split; [done|lia].
  - rewrite delete_next_id. split; [done|lia].
  - rewrite delete_batch_next_id. split; [done|lia].
  - rewrite delete_next_id. split; [done|lia].
  - rewrite delete_batch_next_id. split; [done|lia].
  - rewrite metrics_next_id. split; [done|lia].
  - unfold FakeQueue.metrics_all. rewrite metrics_each_next_id.
    split; [done|lia].
  - split; [done|lia].
Qed.

(** X10.  Identifiers are never reused.  In any sequence of calls, from
    any state, the identifiers [send] and [send_batch] issue are the
    consecutive integers from the state's next identifier on: all different,
    whatever the queues they go to and whatever was deleted, popped or
    archived in between. *)
Theorem issued_identifiers_are_consecutive (cs : list FakeQueue.call) st :
  fst (FakeQueue.run now_at cs st)
  = seqZ (FakeQueue.next_id st)
      (Z.of_nat (length (fst (FakeQueue.run now_at cs st)))) /\
  FakeQueue.next_id (snd (FakeQueue.run now_at cs st))
  = FakeQueue.next_id st
    + Z.of_nat (length (fst (FakeQueue.run now_at cs st))) /\
  NoDup (fst (FakeQueue.run now_at cs st)).
Proof.
  assert (H : fst (FakeQueue.run now_at cs st)
              = seqZ (FakeQueue.next_id st)
                  (Z.of_nat (length (fst (FakeQueue.run now_at cs st)))) /\
              FakeQueue.next_id (snd (FakeQueue.run now_at cs st))
              = FakeQueue.next_id st
                + Z.of_nat (length (fst (FakeQueue.run now_at cs st)))).
  { revert st. induction cs as [|c cs IH]; intros st.
    - cbn. split; [done|lia].
    - rewrite run_cons. cbn [fst snd].
      destruct (step_issues c st) as [H1 H2].
      destruct (IH (snd (FakeQueue.step now_at c st))) as [H3 H4].
      rewrite H4, H2, length_app, Nat2Z.inj_add. split; [|lia].
      rewrite seqZ_app by lia. rewrite <- H1, <- H2. by rewrite <- H3. }
  destruct H as [H1 H2]. split; [done|]. split; [done|].
  rewrite H1. apply NoDup_seqZ.
Qed.

(** ** Sending and reading *)

Lemma slice_to_all {A} (n : Z) (l : list A) :
  Z.of_nat (length l) <= n -> FakeQueue.slice_to n l = l.
Proof.
  intros H. unfold FakeQueue.slice_to.
  destruct (Z.ltb_spec n 0); [lia|]. apply take_ge. lia.
Qed.

(** X11.  A message sent is a message read.  After [send], a [read_batch]
    on that queue with a batch size above the number of messages that were
    there returns those messages followed by the new one: the identifier
    [send] returned, read count 0, the payload as given.  On an empty or
    unknown queue a batch of 1 returns exactly the message sent. *)
Theorem send_then_read_returns_the_message st q (p : Payload) (n : Z) :
  Z.of_nat (length (FakeQueue.getitem st q)) < n ->
  fst (FakeQueue.read_batch (snd (FakeQueue.send now_at st q p)) q n)
  = FakeQueue.getitem st q ++
    [FakeQueue.mkMessage (fst (FakeQueue.send now_at st q p)) 0
       (now_at (FakeQueue.clock st)) (now_at (FakeQueue.clock st)) p].
Proof.
  intros Hn. unfold FakeQueue.read_batch. cbn [fst].
  rewrite getitem_ensure, send_getitem, decide_True by done.
  rewrite send_fst. apply slice_to_all.
  rewrite length_app. cbn. lia.
Qed.

(** X12.  Reading takes a prefix and changes no message.  [read_batch]
    returns the oldest messages of the queue, as many as the batch size
    asks for or as there are; a negative batch size, as a Python slice,
    leaves out that many of the newest.  The messages of every queue and the
    next identifier are as before, so that reading again returns the same. *)
Theorem read_batch_takes_a_prefix_and_changes_nothing st q (n : Z) :
  fst (FakeQueue.read_batch st q n) `prefix_of` FakeQueue.getitem st q /\
  Z.of_nat (length (fst (FakeQueue.read_batch st q n)))
  = Z.max 0 (Z.min (Z.of_nat (length (FakeQueue.getitem st q)))
               (if n <? 0
                then Z.of_nat (length (FakeQueue.getitem st q)) + n
                else n)) /\
  (forall q', FakeQueue.getitem (snd (FakeQueue.read_batch st q n)) q'
              = FakeQueue.getitem st q') /\
  FakeQueue.next_id (snd (FakeQueue.read_batch st q n))
  = FakeQueue.next_id st /\
  fst (FakeQueue.read_batch (snd (FakeQueue.read_batch st q n)) q n)
  = fst (FakeQueue.read_batch st q n).
Proof.
  unfold FakeQueue.read_batch. cbn [fst snd].
  rewrite !getitem_ensure, next_id_ensure.
  split; [apply prefix_take|]. split.
  - unfold FakeQueue.slice_to. rewrite length_take.
    destruct (Z.ltb_spec n 0); lia.
  - split; [intros q'; apply getitem_ensure|done].
Qed.

(** ** Naming a queue creates it *)




(** ** Popping *)

Lemma ensure_lookup_is_Some st q :
  is_Some (FakeQueue.lookup_queue q
             (FakeQueue.queues (FakeQueue._ensure_queue st q))).
Proof. rewrite ensure_present. by eexists. Qed.

(** X14.  [pop] is first in, first out.  On a queue with messages it
    returns the oldest one and removes it, leaving the others in order and
    the other queues alone; on a queue without messages, or unknown, it
    raises [IndexError("empty queue")] and leaves the queue created. *)
Theorem pop_returns_the_oldest_message st q :
  (forall m l,
     FakeQueue.getitem st q = m :: l ->
     fst (FakeQueue.pop st q) = Return m /\
     forall q', FakeQueue.getitem (snd (FakeQueue.pop st q)) q'
                = if decide (q' = q) then l else FakeQueue.getitem st q') /\
  (FakeQueue.getitem st q = [] ->
   FakeQueue.pop st q
   = (Raise (Exn "IndexError" "empty queue" true),
      FakeQueue._ensure_queue st q)).
Proof.
  unfold FakeQueue.pop. rewrite getitem_ensure. split.
  - intros m l ->. cbn [fst snd]. split; [done|]. intros q'.
    rewrite getitem_setitem by apply ensure_lookup_is_Some.
    by rewrite getitem_ensure.
  - by intros ->.
Qed.

(** ** Deleting *)

Lemma filter_other_ids_id l (i : Z) :
  i ∉ FakeQueue.ids_of l ->
  filter (fun m : FakeQueue.Message => FakeQueue.msg_id m <> i) l = l.
Proof.
  induction l as [|m l IH]; [done|].
  unfold FakeQueue.ids_of in *. rewrite fmap_cons, not_elem_of_cons.
  intros [Hne Hl].
  rewrite filter_cons_True by done. by rewrite IH.
Qed.

Lemma remove_first_NoDup l (i : Z) :
  NoDup (FakeQueue.ids_of l) ->
  FakeQueue.remove_first i l
  = if decide (i ∈ FakeQueue.ids_of l)
    then Some (filter (fun m : FakeQueue.Message => FakeQueue.msg_id m <> i) l)
    else None.
Proof.
  induction l as [|m l IH];
    cbn [FakeQueue.remove_first FakeQueue.ids_of fmap list_fmap].
  - intros _. rewrite decide_False; [done|apply not_elem_of_nil].
  - rewrite NoDup_cons. intros [Hm Hl]. fold (FakeQueue.ids_of l) in *.
    destruct (Z.eqb_spec (FakeQueue.msg_id m) i) as [<-|Hne].
    + rewrite decide_True by apply list_elem_of_here.
      rewrite filter_cons_False by (intros H; by apply H).
      by rewrite filter_other_ids_id.
    + rewrite (IH Hl). rewrite filter_cons_True by done.
      destruct (decide (i ∈ FakeQueue.ids_of l)) as [Hi|Hi].
      * rewrite decide_True; [done|by apply list_elem_of_further].
      * rewrite decide_False; [done|].
        rewrite not_elem_of_cons. split; [congruence|done].
Qed.

Lemma well_formed_queue_NoDup st q :
  FakeQueue.well_formed st -> NoDup (FakeQueue.ids_of (FakeQueue.getitem st q)).
Proof.
  intros (_ & Hn & _). unfold FakeQueue.getitem.
  destruct (FakeQueue.lookup_queue q (FakeQueue.queues st)) as [l|] eqn:H;
    cbn; [|apply NoDup_nil_2].
  destruct (all_ids_split _ _ _ H) as (a & b & Ha & _).
  rewrite Ha in Hn. apply NoDup_app in Hn as (_ & _ & Hn).
  by apply NoDup_app in Hn as (Hn & _).
Qed.

Lemma delete_fst st q (i : Z) :
  FakeQueue.well_formed st ->
  fst (FakeQueue.delete st q i)
  = bool_decide (i ∈ FakeQueue.ids_of (FakeQueue.getitem st q)).
Proof.
  intros Hwf. unfold FakeQueue.delete.
  rewrite getitem_ensure, remove_first_NoDup
    by by apply well_formed_queue_NoDup.
  destruct (decide (i ∈ _)); cbn;
    [by rewrite bool_decide_eq_true_2|by rewrite bool_decide_eq_false_2].
Qed.

Lemma delete_getitem st q (i : Z) q' :
  FakeQueue.well_formed st ->
  FakeQueue.getitem (snd (FakeQueue.delete st q i)) q'
  = if decide (q' = q)
    then filter (fun m : FakeQueue.Message => FakeQueue.msg_id m <> i)
           (FakeQueue.getitem st q)
    else FakeQueue.getitem st q'.
Proof.
  intros Hwf. unfold FakeQueue.delete.
  rewrite getitem_ensure, remove_first_NoDup
    by by apply well_formed_queue_NoDup.
  destruct (decide (i ∈ _)) as [Hi|Hi]; cbn [snd].
  - rewrite getitem_setitem by apply ensure_lookup_is_Some.
    by rewrite getitem_ensure.
  - rewrite getitem_ensure. destruct (decide (q' = q)) as [->|]; [|done].
    by rewrite filter_other_ids_id.
Qed.

(** X15.  On a reachable state [delete] removes exactly the message with
    the given identifier: it answers [True] when the queue holds that
    identifier and [False] when not; afterwards the queue holds the other
    messages, in their order; the other queues and the next identifier are
    untouched.  [archive] is the same. *)
Theorem delete_removes_exactly_that_message st q (i : Z) :
  FakeQueue.well_formed st ->
  fst (FakeQueue.delete st q i)
  = bool_decide (i ∈ FakeQueue.ids_of (FakeQueue.getitem st q)) /\
  (forall q',
     FakeQueue.getitem (snd (FakeQueue.delete st q i)) q'
     = if decide (q' = q)
       then filter (fun m : FakeQueue.Message => FakeQueue.msg_id m <> i)
              (FakeQueue.getitem st q)
       else FakeQueue.getitem st q') /\
  FakeQueue.next_id (snd (FakeQueue.delete st q i)) = FakeQueue.next_id st /\
  FakeQueue.archive st q i = FakeQueue.delete st q i.
Proof.
  intros Hwf. split; [by apply delete_fst|].
  split; [intros q'; by apply delete_getitem|].
  split; [apply delete_next_id|done].
Qed.

Lemma delete_batch_spec st q (ids : list Z) :
  FakeQueue.well_formed st ->
  fst (FakeQueue.delete_batch st q ids) `sublist_of` ids /\
  NoDup (fst (FakeQueue.delete_batch st q ids)) /\
  (forall i, i ∈ fst (FakeQueue.delete_batch st q ids)
             <-> i ∈ ids /\ i ∈ FakeQueue.ids_of (FakeQueue.getitem st q)) /\
  (forall q',
     FakeQueue.getitem (snd (FakeQueue.delete_batch st q ids)) q'
     = if decide (q' = q)
       then filter (fun m : FakeQueue.Message => FakeQueue.msg_id m ∉ ids)
              (FakeQueue.getitem st q)
       else FakeQueue.getitem st q') /\
  (length (FakeQueue.getitem (snd (FakeQueue.delete_batch st q ids)) q)
   + length (fst (FakeQueue.delete_batch st q ids))
   = length (FakeQueue.getitem st q))%nat.
Proof.
  revert st. induction ids as [|i ids IH]; intros st Hwf.
  - cbn. split; [done|]. split; [apply NoDup_nil_2|].
    split; [intros i; rewrite elem_of_nil; tauto|].
    split; [|lia]. intros q'. destruct (decide (q' = q)) as [->|]; [|done].
    induction (FakeQueue.getitem st q) as [|m l IHl]; [done|].
    rewrite filter_cons_True by apply not_elem_of_nil. by rewrite <- IHl.
  - rewrite delete_batch_cons. cbn [fst snd].
    pose proof (delete_well_formed st q i Hwf) as Hwf1.
    destruct (IH _ Hwf1) as (Hsub & Hnd & Hin & Hget & Hlen).
    pose proof (delete_getitem st q i q Hwf) as Hq.
    rewrite decide_True in Hq by done.
    set (l := FakeQueue.getitem st q) in *.
    set (d := fst (FakeQueue.delete_batch
                     (snd (FakeQueue.delete st q i)) q ids)) in *.
    assert (Hid : i ∉ d).
    { intros Hd. apply Hin in Hd as [_ Hd]. rewrite Hq in Hd.
      unfold FakeQueue.ids_of in Hd. apply list_elem_of_fmap in Hd
        as (m & -> & Hm). apply list_elem_of_filter in Hm as [Hm _]. done. }
    assert (Hmem : forall j, j ∈ FakeQueue.ids_of
                     (filter (fun m : FakeQueue.Message =>
                                FakeQueue.msg_id m <> i) l)
                   <-> j <> i /\ j ∈ FakeQueue.ids_of l).
    { intros j. unfold FakeQueue.ids_of. rewrite !list_elem_of_fmap.
      split.
      - intros (m & -> & Hm). apply list_elem_of_filter in Hm as [? ?].
        split; [done|by exists m].
      - intros (Hj & m & -> & Hm). exists m. split; [done|].
        by apply list_elem_of_filter. }
    assert (Hfil : filter (fun m : FakeQueue.Message =>
                             FakeQueue.msg_id m ∉ i :: ids) l
                   = filter (fun m : FakeQueue.Message =>
                               FakeQueue.msg_id m ∉ ids)
                       (filter (fun m : FakeQueue.Message =>
                                  FakeQueue.msg_id m <> i) l)).
    { rewrite list_filter_filter. apply list_filter_iff.
      intros m. rewrite not_elem_of_cons. tauto. }
    rewrite (delete_fst st q i Hwf). fold l.
    assert (Hgetq : forall q',
              FakeQueue.getitem
                (snd (FakeQueue.delete_batch
                        (snd (FakeQueue.delete st q i)) q ids)) q'
              = if decide (q' = q)
                then filter (fun m : FakeQueue.Message =>
                               FakeQueue.msg_id m ∉ i :: ids) l
                else FakeQueue.getitem st q').
    { intros q'. rewrite Hget. destruct (decide (q' = q)) as [->|Hne].
      - by rewrite Hq, Hfil.
      - by rewrite delete_getitem, decide_False. }
    assert (Hlen' : (length (filter (fun m : FakeQueue.Message =>
                                       FakeQueue.msg_id m <> i) l)
                     + (if bool_decide (i ∈ FakeQueue.ids_of l)
                        then 1 else 0) = length l)%nat).
    { pose proof (well_formed_queue_NoDup st q Hwf) as Hl. fold l in Hl.
      clear -Hl. induction l as [|m l IHl]; [done|].
      unfold FakeQueue.ids_of in Hl. rewrite fmap_cons in Hl.
      apply NoDup_cons in Hl as [Hm Hl]. specialize (IHl Hl).
      unfold FakeQueue.ids_of. rewrite fmap_cons.
      fold (FakeQueue.ids_of l) in *. cbn [length].
      destruct (decide (FakeQueue.msg_id m = i)) as [<-|Hne].
      - rewrite filter_cons_False by (intros H; by apply H).
        rewrite filter_other_ids_id by done.
        rewrite bool_decide_eq_true_2 by apply list_elem_of_here. lia.
      - rewrite filter_cons_True by done. cbn [length].
        destruct (bool_decide_reflect (i ∈ FakeQueue.ids_of l)) as [Hi|Hi].
        + rewrite bool_decide_eq_true_2 by by apply list_elem_of_further.
          lia.
        + rewrite bool_decide_eq_false_2; [lia|].
          rewrite not_elem_of_cons. split; [congruence|done]. }
    rewrite Hget, decide_True, Hq in Hlen by done.
    destruct (bool_decide_reflect (i ∈ FakeQueue.ids_of l)) as [Hi|Hi].
    + split; [by apply sublist_skip|].
      split; [by apply NoDup_cons|].
      split; [|split; [done|]].
      * intros j. rewrite !elem_of_cons, Hin, Hq, Hmem.
        split; [|destruct (decide (j = i)); tauto].
        intros [->|(? & ? & ?)]; [split; [by left|done]|split; [by right|done]].
      * rewrite Hgetq, decide_True by done. rewrite Hfil. cbn [length]. lia.
    + split; [by apply sublist_cons|].
      split; [done|].
      split; [|split; [done|]].
      * intros j. rewrite elem_of_cons, Hin, Hq, Hmem.
        split; [tauto|].
        intros [[->|?] ?]; [done|]. split; [done|]. split; [|done].
        intros ->. done.
      * rewrite Hgetq, decide_True by done. rewrite Hfil. lia.
Qed.

(** X16.  On a reachable state [delete_batch] reports what it deleted: the
    answer lists, in the order asked and once each, the identifiers asked
    for that the queue held; afterwards the queue holds the messages whose
    identifier was not asked for, in their order, and as many fewer as the
    answer is long; the other queues are untouched.  [archive_batch] is the
    same. *)
Theorem delete_batch_reports_what_it_deleted st q (ids : list Z) :
  FakeQueue.well_formed st ->
  fst (FakeQueue.delete_batch st q ids) `sublist_of` ids /\
  NoDup (fst (FakeQueue.delete_batch st q ids)) /\
  (forall i, i ∈ fst (FakeQueue.delete_batch st q ids)
             <-> i ∈ ids /\ i ∈ FakeQueue.ids_of (FakeQueue.getitem st q)) /\
  (forall q',
     FakeQueue.getitem (snd (FakeQueue.delete_batch st q ids)) q'
     = if decide (q' = q)
       then filter (fun m : FakeQueue.Message => FakeQueue.msg_id m ∉ ids)
              (FakeQueue.getitem st q)
       else FakeQueue.getitem st q') /\
  (length (FakeQueue.getitem (snd (FakeQueue.delete_batch st q ids)) q)
   + length (fst (FakeQueue.delete_batch st q ids))
   = length (FakeQueue.getitem st q))%nat /\
  FakeQueue.archive_batch st q ids = FakeQueue.delete_batch st q ids.
Proof.
  intros Hwf.
  destruct (delete_batch_spec st q ids Hwf) as (H1 & H2 & H3 & H4 & H5).
  done.
Qed.

(** ** Batches *)

Lemma send_batch_getitem st q (ps : list Payload) :
  exists new,
    (forall q', FakeQueue.getitem
                  (snd (FakeQueue.send_batch now_at st q ps)) q'
                = if decide (q' = q) then FakeQueue.getitem st q ++ new
                  else FakeQueue.getitem st q') /\
    FakeQueue.message <$> new = ps /\
    FakeQueue.msg_id <$> new = fst (FakeQueue.send_batch now_at st q ps) /\
    Forall (fun m => FakeQueue.read_ct m = 0) new.
Proof.
  revert st. induction ps as [|p ps IH]; intros st.
  - exists []. cbn. split; [|done].
    intros q'. rewrite app_nil_r. by destruct (decide (q' = q)) as [->|].
  - rewrite send_batch_cons. cbn [fst snd].
    destruct (IH (snd (FakeQueue.send now_at st q p)))
      as (new & Hget & Hp & Hi & Hr).
    exists (FakeQueue.mkMessage (FakeQueue.next_id st) 0
              (now_at (FakeQueue.clock st)) (now_at (FakeQueue.clock st)) p
            :: new).
    split; [|split; [|split]].
    + intros q'. rewrite Hget, !send_getitem.
      destruct (decide (q' = q)) as [->|]; [|done].
      rewrite decide_True by done. by rewrite <- app_assoc.
    + cbn. by rewrite Hp.
    + by rewrite fmap_cons, Hi, send_fst.
    + by apply Forall_cons.
Qed.

(** X17.  [send_batch] queues the messages in the order given, behind
    those already there, each with the identifier returned for it: the
    answer is one identifier per payload, consecutive from the next
    identifier on, and other queues are untouched. *)
Theorem send_batch_appends_in_order st q (ps : list Payload) :
  fst (FakeQueue.send_batch now_at st q ps)
  = seqZ (FakeQueue.next_id st) (Z.of_nat (length ps)) /\
  exists new,
    (forall q', FakeQueue.getitem
                  (snd (FakeQueue.send_batch now_at st q ps)) q'
                = if decide (q' = q) then FakeQueue.getitem st q ++ new
                  else FakeQueue.getitem st q') /\
    FakeQueue.message <$> new = ps /\
    FakeQueue.msg_id <$> new = fst (FakeQueue.send_batch now_at st q ps) /\
    Forall (fun m => FakeQueue.read_ct m = 0) new.
Proof.
  split; [apply send_batch_issues|apply send_batch_getitem].
Qed.

(** ** Metrics *)

(** X18.  [metrics] never answers.  Of the names line 9 of the test module
    imports, [Message] is the only one that gets bound: the package has no
    [QueueMetrics].  So a call of [metrics] creates the queue when it does
    not exist, reads the clock once, and then raises [NameError] where it
    names the class; the messages of every queue and the next identifier
    are as they were. *)
Theorem metrics_raises_name_error st q :
  FakeQueue.imported = ["Message"] /\
  fst (FakeQueue.metrics now_at st q)
  = Raise (Exn "NameError" "name 'QueueMetrics' is not defined" true) /\
  q ∈ FakeQueue.list_queues (snd (FakeQueue.metrics now_at st q)) /\
  (forall q', FakeQueue.getitem (snd (FakeQueue.metrics now_at st q)) q'
              = FakeQueue.getitem st q') /\
  FakeQueue.next_id (snd (FakeQueue.metrics now_at st q))
  = FakeQueue.next_id st /\
  FakeQueue.clock (snd (FakeQueue.metrics now_at st q))
  = S (FakeQueue.clock st).
Proof.
  split; [apply imported_names|].
  split; [by rewrite metrics_run|].
  split; [|split; [|split]].
  - rewrite metrics_run. cbn [snd].
    change (FakeQueue.list_queues (FakeQueue.mkFakeQueue
              (FakeQueue.queues ?s) _ _))
      with (FakeQueue.list_queues s).
    rewrite list_queues_ensure.
    destruct (decide (q ∈ FakeQueue.list_queues st)); [done|].
    apply elem_of_app. right. apply list_elem_of_here.
  - intros q'. rewrite metrics_run. cbn [snd].
    change (FakeQueue.getitem (FakeQueue.mkFakeQueue
              (FakeQueue.queues ?s) _ _) q')
      with (FakeQueue.getitem s q').
    apply getitem_ensure.
  - apply metrics_next_id.
  - rewrite metrics_run. cbn [snd FakeQueue.clock]. by rewrite clock_ensure.
Qed.

(** X19.  [metrics_all] answers only when there is no queue, and then with
    the empty list and without reading the clock.  With one queue or more,
    the call of [metrics] for the first of them raises [NameError]: the
    clock was read once, whatever the number of queues, and the queues are
    as they were. *)
Theorem metrics_all_answers_only_without_queues st :
  FakeQueue.metrics_all now_at st
  = match FakeQueue.queues st with
    | [] => (Return [], st)
    | _ :: _ =>
        (Raise (Exn "NameError" "name 'QueueMetrics' is not defined" true),
         FakeQueue.mkFakeQueue (FakeQueue.queues st) (FakeQueue.next_id st)
           (S (FakeQueue.clock st)))
    end.
Proof.
  unfold FakeQueue.metrics_all, FakeQueue.list_queues.
  destruct (FakeQueue.queues st) as [|[k l] qs] eqn:Hq; [done|].
  rewrite fmap_cons, metrics_each_cons, metrics_run. cbn [fst snd].
  assert (He : FakeQueue._ensure_queue st k = st).
  { unfold FakeQueue._ensure_queue. rewrite Hq. cbn.
    by rewrite String.eqb_refl. }
  by rewrite He, Hq.
Qed.

End FakeQueueFacts.

(** ** The theorems above at work *)

Lemma two_sent_well_formed : FakeQueue.well_formed FakeScenario.two_sent.
Proof. repeat split; compute_done. Defined.

Lemma send_then_read_returns_the_message_witness :
  fst (FakeQueue.read_batch
         (snd (FakeQueue.send FakeScenario.clock FakeScenario.fresh "test"
                 FakeScenario.foo_bar))
         "test" 1)
  = [FakeQueue.mkMessage 1 0 1700000000 1700000000 FakeScenario.foo_bar].
Proof.
  apply (send_then_read_returns_the_message FakeScenario.clock
           FakeScenario.fresh "test" FakeScenario.foo_bar 1).
  vm_compute. reflexivity.
Defined.

Lemma pop_returns_the_oldest_message_witness :
  fst (FakeQueue.pop FakeScenario.two_sent "test")
  = Return (FakeQueue.mkMessage 1 0 1700000000 1700000000 FakeScenario.foo_1)
  /\
  fst (FakeQueue.pop FakeScenario.two_sent "jobs")
  = Raise (Exn "IndexError" "empty queue" true).
Proof.
  split.
  - destruct (pop_returns_the_oldest_message FakeScenario.two_sent "test")
      as [H _].
    eapply H. vm_compute. reflexivity.
  - destruct (pop_returns_the_oldest_message FakeScenario.two_sent "jobs")
      as [_ H].
    rewrite H; [reflexivity|]. vm_compute. reflexivity.
Defined.

Lemma delete_removes_exactly_that_message_witness :
  fst (FakeQueue.delete FakeScenario.two_sent "test" 1) = true /\
  fst (FakeQueue.delete FakeScenario.two_sent "test" 7) = false.
Proof.
  split.
  - destruct (delete_removes_exactly_that_message FakeScenario.two_sent
                "test" 1 two_sent_well_formed) as [H _].
    rewrite H. vm_compute. reflexivity.
  - destruct (delete_removes_exactly_that_message FakeScenario.two_sent
                "test" 7 two_sent_well_formed) as [H _].
    rewrite H. vm_compute. reflexivity.
Defined.

Lemma delete_batch_reports_what_it_deleted_witness :
  NoDup (fst (FakeQueue.delete_batch FakeScenario.two_sent "test" [1; 7; 1])).
Proof.
  apply (delete_batch_reports_what_it_deleted FakeScenario.two_sent "test"
           [1; 7; 1] two_sent_well_formed).
Defined.
